(** * etl_script.py: a metadata-driven extract / transform / load run

    A shallow embedding of
    [Netezza_to_AWS_Migration_for_Incremental_Jobs/etl_script.py]
    and the properties of its specification.

    The script reads a CSV table of (source_table, target_table,
    column_name) triples with [csv.DictReader], groups the entries by
    (source_table, target_table), and for every group builds three
    placeholder rows, stamps each row in place with [processed_at] and
    prints the rows.

    Python values are modelled as follows.
    - A [dict] is an association list in insertion order ([pydict]);
      assignment to a key that is present replaces the value where the
      key stands, assignment to a new key appends.
    - The row dictionaries are objects that [transform_data] mutates in
      place: they live in a [heap] and the program passes references.
    - [print], [open] and [datetime.datetime.now] are effects: the first
      two are recorded in a trace, the clock is an oracle read through a
      counter.
    - An uncaught exception ends the run: every operation returns either
      [Ok] with a value or [Raise] with the exception. *)

From Stdlib Require Import String Ascii NArith.
From stdpp Require Import base tactics option numbers list strings.

(** ** Python values that occur as table names, column names and keys *)

(** [csv.DictReader] fills a field either with the text read ([str]) or,
    for a row shorter than the header, with [None]. *)
Inductive pyval :=
  | PyNone
  | PyStr (s : string).

#[global] Instance pyval_eq_dec : EqDecision pyval.
Proof. solve_decision. Defined.

(** [str(v)], the conversion an f-string applies to an interpolated value. *)
Definition py_str (v : pyval) : string :=
  match v with
  | PyNone => "None"
  | PyStr s => s
  end.

(** ** Dictionaries *)

Section PyDict.
Context {K V : Type} `{EqDecision K}.

Definition pydict := list (K * V).

(** [d.get(k)]: [None] when the key is absent. *)
Fixpoint dict_get (d : pydict) (k : K) : option V :=
  match d with
  | [] => None
  | (k', v) :: d' => if decide (k' = k) then Some v else dict_get d' k
  end.

(** [k in d] *)
Definition dict_mem (d : pydict) (k : K) : bool :=
  bool_decide (is_Some (dict_get d k)).

(** [d[k] = v] *)
Fixpoint dict_set (d : pydict) (k : K) (v : V) : pydict :=
  match d with
  | [] => [(k, v)]
  | (k', v') :: d' =>
      if decide (k' = k) then (k', v) :: d' else (k', v') :: dict_set d' k v
  end.

(** [list(d.keys())] *)
Definition dict_keys (d : pydict) : list K := d.*1.

(** The representation invariant of a dictionary: a key occurs once. *)
Definition dict_wf (d : pydict) : Prop := NoDup (dict_keys d).

End PyDict.

Arguments pydict : clear implicits.

(** ** The names of a list, each once, in order of first occurrence *)

Section Distinct.
Context {A : Type} `{EqDecision A}.

Definition add_new (acc : list A) (x : A) : list A :=
  if decide (x ∈ acc) then acc else acc ++ [x].

Definition distinct (l : list A) : list A := foldl add_new [] l.

End Distinct.

(** ** [datetime] and [isoformat] *)

(** A naive [datetime.datetime] value, as [datetime.datetime.now()]
    returns it (no time zone). *)
Record datetime := {
  year : N;
  month : N;
  day : N;
  hour : N;
  minute : N;
  second : N;
  microsecond : N
}.

(** The ranges [datetime] enforces on its fields. *)
Definition valid_datetime (t : datetime) : Prop :=
  (1 ≤ year t ≤ 9999 ∧ 1 ≤ month t ≤ 12 ∧ 1 ≤ day t ≤ 31 ∧
   hour t < 24 ∧ minute t < 60 ∧ second t < 60 ∧ microsecond t < 1000000)%N.

Definition digit_char (d : N) : ascii := ascii_of_N (48 + d).

(** Number of decimal digits of [n] (at least one). *)
Fixpoint ndigits_fuel (fuel : nat) (n : N) : nat :=
  match fuel with
  | 0 => 1
  | S fuel' => if (n <? 10)%N then 1 else S (ndigits_fuel fuel' (n / 10)%N)
  end.

(** A number has no more decimal digits than binary ones. *)
Definition ndigits (n : N) : nat := ndigits_fuel (N.size_nat n) n.

(** The [w] lowest decimal digits of [n], highest first. *)
Fixpoint low_digits (w : nat) (n : N) : list ascii :=
  match w with
  | 0 => []
  | S w' => low_digits w' (n / 10)%N ++ [digit_char (n mod 10)%N]
  end.

(** ["%0wd" % n] for a natural number: all digits of [n], padded with
    zeros on the left to width [w]. *)
Definition fmt_0d (w : nat) (n : N) : list ascii :=
  low_digits (max w (ndigits n)) n.

(** [t.isoformat()] with the default separator and [timespec='auto']:
    [YYYY-MM-DDTHH:MM:SS], followed by [.ffffff] when the microsecond
    field is not zero. *)
Definition isoformat_chars (t : datetime) : list ascii :=
  fmt_0d 4 (year t) ++ "-"%char :: fmt_0d 2 (month t) ++ "-"%char ::
  fmt_0d 2 (day t) ++ "T"%char :: fmt_0d 2 (hour t) ++ ":"%char ::
  fmt_0d 2 (minute t) ++ ":"%char :: fmt_0d 2 (second t) ++
  (if (microsecond t =? 0)%N then [] else "."%char :: fmt_0d 6 (microsecond t)).

Definition isoformat (t : datetime) : string :=
  string_of_list_ascii (isoformat_chars t).

Definition is_digit (c : ascii) : bool :=
  ((48 <=? N_of_ascii c) && (N_of_ascii c <=? 57))%N.

(** The ISO 8601 extended calendar date and time of day,
    [dddd-dd-ddTdd:dd:dd], with an optional decimal fraction of the
    second. *)
Definition iso8601_chars (l : list ascii) : bool :=
  match l with
  | y1 :: y2 :: y3 :: y4 :: c1 :: m1 :: m2 :: c2 :: d1 :: d2 :: c3 ::
    h1 :: h2 :: c4 :: n1 :: n2 :: c5 :: s1 :: s2 :: frac =>
      forallb is_digit [y1; y2; y3; y4; m1; m2; d1; d2; h1; h2; n1; n2; s1; s2]
      && bool_decide (c1 = "-"%char) && bool_decide (c2 = "-"%char)
      && bool_decide (c3 = "T"%char)
      && bool_decide (c4 = ":"%char) && bool_decide (c5 = ":"%char)
      && match frac with
         | [] => true
         | dot :: f :: fs => bool_decide (dot = "."%char) && forallb is_digit (f :: fs)
         | _ => false
         end
  | _ => false
  end.

Definition is_iso8601 (s : string) : bool :=
  iso8601_chars (list_ascii_of_string s).

(** ** The metadata file as [csv.DictReader] presents it *)

(** The records [csv.reader] yields for a file, one list of fields per
    line; a blank line is the empty record. *)
Definition csv_file := list (list string).

(** One row of [csv.DictReader]: the dictionary from field names to the
    fields read, where [cells] is its part under the field names and
    [restkey] its entry under the key [None], present only for a row
    longer than the header. *)
Record csv_row := {
  cells : pydict string pyval;
  restkey : option (list string)
}.

(** [DictReader.__next__] on a record that is not blank:
    [d = dict(zip(fieldnames, row))], then [d[None] = row[lf:]] for a
    long row and [d[key] = None] for every [key in fieldnames[lr:]] of a
    short one. *)
Definition dict_reader_row (fieldnames row : list string) : csv_row :=
  let d := foldl (λ d kv, dict_set d kv.1 (PyStr kv.2)) [] (zip fieldnames row) in
  let lf := length fieldnames in
  let lr := length row in
  if lf <? lr then {| cells := d; restkey := Some (drop lf row) |}
  else if lr <? lf then
    {| cells := foldl (λ d key, dict_set d key PyNone) d (drop lr fieldnames);
       restkey := None |}
  else {| cells := d; restkey := None |}.

(** The rows a [csv.DictReader] yields: the first record gives the field
    names, blank records are skipped. *)
Definition DictReader (f : csv_file) : list csv_row :=
  match f with
  | [] => []
  | fieldnames :: records =>
      dict_reader_row fieldnames <$> filter (λ r, r ≠ []) records
  end.

(** ** State, effects and exceptions *)

(** A reference to a dictionary object: its position in the heap. *)
Abbreviation ref := nat (only parsing).

(** A data row: column (a [str], or [None]) to text. *)
Abbreviation row := (pydict pyval string) (only parsing).

(** What the script prints, one constructor per [print] statement. *)
Inductive line :=
  | LExtracting (table : pyval) (columns : list pyval)
  | LTransforming
  | LLoading (table : pyval)
  | LRow (r : row).

(** What a run does to the world outside: a file opened (recorded when
    [open] succeeds) and a line printed. *)
Inductive event :=
  | EOpen (path : string)
  | EPrint (l : line).

Record state := {
  files : string → option csv_file;
  clock : nat → datetime;
  ticks : nat;
  heap : list row;
  trace : list event
}.

Inductive exn :=
  | FileNotFoundError (path : string)
  | KeyError (key : string)
  | KeyErrorPair (key : pyval * pyval).

Inductive result (A : Type) :=
  | Ok (a : A) (s : state)
  | Raise (e : exn) (s : state).
Arguments Ok {A} a s.
Arguments Raise {A} e s.

Definition M (A : Type) : Type := state → result A.

Definition ret {A} (a : A) : M A := λ s, Ok a s.

Definition bind {A B} (m : M A) (k : A → M B) : M B :=
  λ s, match m s with
       | Ok a s' => k a s'
       | Raise e s' => Raise e s'
       end.

Notation "'let*' x := m 'in' k" := (bind m (λ x, k))
  (at level 10, x pattern, m at level 200, k at level 200).

(** An operation without effect that may raise. *)
Definition lift {A} (r : exn + A) : M A :=
  λ s, match r with
       | inl e => Raise e s
       | inr a => Ok a s
       end.

Definition log (ev : event) (s : state) : state :=
  {| files := files s; clock := clock s; ticks := ticks s; heap := heap s;
     trace := trace s ++ [ev] |}.

Definition print (l : line) : M unit := λ s, Ok () (log (EPrint l) s).

(** [datetime.datetime.now()]: the next reading of the clock. *)
Definition now : M datetime :=
  λ s, Ok (clock s (ticks s))
          {| files := files s; clock := clock s; ticks := S (ticks s);
             heap := heap s; trace := trace s |}.

Definition set_heap (h : list row) (s : state) : state :=
  {| files := files s; clock := clock s; ticks := ticks s; heap := h;
     trace := trace s |}.

(** A new dictionary object. *)
Definition new_dict (d : row) : M ref :=
  λ s, Ok (length (heap s)) (set_heap (heap s ++ [d]) s).

(** The dictionary a reference denotes. A program only holds references
    to objects that exist, so the default is never read in a run. *)
Definition deref (r : ref) : M row := λ s, Ok (heap s !!! r) s.

(** [r[k] = v] on the object itself. *)
Definition set_item (r : ref) (k : pyval) (v : string) : M unit :=
  λ s, Ok () (set_heap (alter (λ d, dict_set d k v) r (heap s)) s).

(** [for x in l: body(x)] *)
Fixpoint for_each {A} (l : list A) (body : A → M unit) : M unit :=
  match l with
  | [] => ret ()
  | x :: l' => let* _ := body x in for_each l' body
  end.

(** [[e for _ in range(n)]] *)
Fixpoint repeatM {A} (n : nat) (m : M A) : M (list A) :=
  match n with
  | 0 => ret []
  | S n' => let* a := m in let* l := repeatM n' m in ret (a :: l)
  end.

(** ** The script *)

Definition processed_at : pyval := PyStr "processed_at".

(** [f"sample_{col}_value"] *)
Definition sample_value (col : pyval) : string :=
  "sample_" +:+ py_str col +:+ "_value".

(** [{col: f"sample_{col}_value" for col in columns}] *)
Definition sample_row (columns : list pyval) : row :=
  foldl (λ d col, dict_set d col (sample_value col)) [] columns.

Definition extract_data (table : pyval) (columns : list pyval) : M (list ref) :=
  let* _ := print (LExtracting table columns) in
  repeatM 3 (new_dict (sample_row columns)).

Definition transform_data (data : list ref) : M (list ref) :=
  let* _ := print LTransforming in
  let* _ := for_each data (λ r,
              let* t := now in
              set_item r processed_at (isoformat t)) in
  ret data.

Definition load_data (table : pyval) (data : list ref) : M unit :=
  let* _ := print (LLoading table) in
  for_each data (λ r, let* d := deref r in print (LRow d)).

(** [row[name]] on a row of the reader *)
Definition row_get (r : csv_row) (name : string) : exn + pyval :=
  match dict_get (cells r) name with
  | Some v => inr v
  | None => inl (KeyError name)
  end.

(** The grouping [read_metadata] builds: (source_table, target_table) to
    the rows of the reader with that pair, in file order. *)
Definition metadata := pydict (pyval * pyval) (list csv_row).

(** [(row['source_table'], row['target_table'])] *)
Definition row_key (r : csv_row) : exn + pyval * pyval :=
  match row_get r "source_table" with
  | inl e => inl e
  | inr src =>
      match row_get r "target_table" with
      | inl e => inl e
      | inr tgt => inr (src, tgt)
      end
  end.

(** The body of the loop of [read_metadata]. The list under a key is
    reached through the dictionary only, so [metadata[key].append(row)]
    is the assignment of the longer list to the key; the lookup raises
    when the key is absent, which the test before it rules out. *)
Definition read_metadata_step (md : metadata) (r : csv_row) : exn + metadata :=
  match row_key r with
  | inl e => inl e
  | inr key =>
      let md := if dict_mem md key then md else dict_set md key [] in
      match dict_get md key with
      | Some entries => inr (dict_set md key (entries ++ [r]))
      | None => inl (KeyErrorPair key)
      end
  end.

Fixpoint read_metadata_rows (md : metadata) (rows : list csv_row) : exn + metadata :=
  match rows with
  | [] => inr md
  | r :: rows' =>
      match read_metadata_step md r with
      | inl e => inl e
      | inr md' => read_metadata_rows md' rows'
      end
  end.

Definition read_metadata (metadata_file : string) : M metadata :=
  λ s, match files s metadata_file with
       | None => Raise (FileNotFoundError metadata_file) s
       | Some f =>
           lift (read_metadata_rows [] (DictReader f)) (log (EOpen metadata_file) s)
       end.

(** [[col['column_name'] for col in columns_info]] *)
Fixpoint column_names (columns_info : list csv_row) : exn + list pyval :=
  match columns_info with
  | [] => inr []
  | col :: rest =>
      match row_get col "column_name" with
      | inl e => inl e
      | inr c =>
          match column_names rest with
          | inl e => inl e
          | inr cs => inr (c :: cs)
          end
      end
  end.

(** The body of the loop of [main]. *)
Definition main_body (item : pyval * pyval * list csv_row) : M unit :=
  let '((source_table, target_table), columns_info) := item in
  let* columns := lift (column_names columns_info) in
  let* data := extract_data source_table columns in
  let* data := transform_data data in
  load_data target_table data.

Definition metadata_file : string := "sample_metadata.csv".

Definition main : M unit :=
  let* metadata := read_metadata metadata_file in
  for_each metadata main_body.

(** ** What a run is expected to leave behind *)

#[global] Instance exn_eq_dec : EqDecision exn.
Proof. solve_decision. Defined.

(** The rows of the reader that carry a key, in file order. *)
Definition entries_of (key : pyval * pyval) (rows : list csv_row) : list csv_row :=
  filter (λ r, row_key r = inr key) rows.

(** A row after [row['processed_at'] = t.isoformat()]. *)
Definition stamp (t : datetime) (d : row) : row :=
  dict_set d processed_at (isoformat t).

(** The heap after the loop of [transform_data] over [data], begun when
    the clock has been read [n] times. *)
Fixpoint stamp_rows (clk : nat → datetime) (n : nat) (data : list ref)
    (h : list row) : list row :=
  match data with
  | [] => h
  | r :: data' => stamp_rows clk (S n) data' (alter (stamp (clk n)) r h)
  end.

(** The position of the last occurrence of [r] in [data]. *)
Definition last_at (data : list ref) (r : ref) (j : nat) : Prop :=
  data !! j = Some r ∧ ∀ j', j < j' → data !! j' ≠ Some r.

(** The references to three objects made one after the other in heap [h]. *)
Definition fresh_refs (h : list row) : list ref :=
  [length h; S (length h); S (S (length h))].

(** The three rows loaded for a list of columns, when the clock has been
    read [n] times before. *)
Definition loaded_rows (clk : nat → datetime) (n : nat) (columns : list pyval)
    : list row :=
  [stamp (clk n) (sample_row columns);
   stamp (clk (S n)) (sample_row columns);
   stamp (clk (S (S n))) (sample_row columns)].

(** What one key prints: extract, then transform, then load with its rows. *)
Definition key_trace (clk : nat → datetime) (n : nat)
    (source_table target_table : pyval) (columns : list pyval) : list event :=
  [EPrint (LExtracting source_table columns); EPrint LTransforming;
   EPrint (LLoading target_table)] ++
  (EPrint ∘ LRow <$> loaded_rows clk n columns).

(** The keys of the metadata with the column list derived for each. *)
Fixpoint plan_of (md : metadata) : exn + list (pyval * pyval * list pyval) :=
  match md with
  | [] => inr []
  | (key, columns_info) :: md' =>
      match column_names columns_info with
      | inl e => inl e
      | inr columns =>
          match plan_of md' with
          | inl e => inl e
          | inr plan => inr ((key, columns) :: plan)
          end
      end
  end.

(** One key after the other, each with its three readings of the clock. *)
Fixpoint keys_trace (clk : nat → datetime) (n : nat)
    (plan : list (pyval * pyval * list pyval)) : list event :=
  match plan with
  | [] => []
  | (key, columns) :: plan' =>
      key_trace clk n key.1 key.2 columns ++ keys_trace clk (3 + n) plan'
  end.

Fixpoint keys_rows (clk : nat → datetime) (n : nat)
    (plan : list (pyval * pyval * list pyval)) : list row :=
  match plan with
  | [] => []
  | (key, columns) :: plan' =>
      loaded_rows clk n columns ++ keys_rows clk (3 + n) plan'
  end.

Definition is_open (ev : event) : bool :=
  match ev with
  | EOpen _ => true
  | EPrint _ => false
  end.

(** ** Sample runs *)

(** A clock that advances by a microsecond at every reading. *)
Definition tick_clock (n : nat) : datetime :=
  {| year := 2024; month := 3; day := 9; hour := 12; minute := 0; second := 5;
     microsecond := N.of_nat n mod 1000000 |}.

Definition header : list string := ["source_table"; "target_table"; "column_name"].

(** The round trip of the specification: two columns of one table. *)
Definition orders_file : csv_file :=
  [header; ["orders"; "orders_dw"; "id"]; ["orders"; "orders_dw"; "amount"]].

(** The same column listed twice for one pair of tables. *)
Definition dup_file : csv_file :=
  [header; ["orders"; "orders_dw"; "id"]; ["orders"; "orders_dw"; "id"]].

(** A row without its [column_name] field. *)
Definition short_file : csv_file :=
  [header; ["orders"; "orders_dw"]].

(** A run that starts with nothing printed, an empty heap and [f] as the
    metadata file. *)
Definition world (f : csv_file) : state :=
  {| files := λ p, if decide (p = metadata_file) then Some f else None;
     clock := tick_clock; ticks := 0; heap := []; trace := [] |}.

(** A state with two row objects, the second already stamped. *)
Definition two_rows : state :=
  {| files := λ _, None; clock := tick_clock; ticks := 7;
     heap := [[(PyStr "id", "1")];
              [(PyStr "id", "2"); (processed_at, "2024-01-01T00:00:00")]];
     trace := [] |}.

(** ** Sentences of the specification, worded as it words them *)

(** Extract called with N columns returns 3 rows, each with exactly those
    N columns, each mapped to the placeholder of its name. *)
Definition extract_keeps_every_column : Prop :=
  ∀ (table : pyval) (columns : list pyval) (s : state),
    ∃ data s', extract_data table columns s = Ok data s' ∧ length data = 3 ∧
      ∀ r, r ∈ data →
        ∃ d, heap s' !! r = Some d ∧ length d = length columns ∧
             ∀ col, col ∈ columns → dict_get d col = Some (sample_value col).

(** Transform returns the same rows with exactly one field added to each,
    [processed_at], and every other field as it was. *)
Definition transform_adds_one_field : Prop :=
  ∀ (data : list ref) (s : state),
    ∃ s', transform_data data s = Ok data s' ∧
      ∀ r d, r ∈ data → heap s !! r = Some d →
        ∃ d', heap s' !! r = Some d' ∧ length d' = S (length d) ∧
              is_Some (dict_get d' processed_at) ∧
              ∀ k, k ≠ processed_at → dict_get d' k = dict_get d k.

(** A metadata row with fewer fields than the header makes the loader
    raise. *)
Definition short_row_is_rejected : Prop :=
  ∀ (records : list (list string)) (record : list string) (s : state),
    files s metadata_file = Some (header :: records) →
    record ∈ records → record ≠ [] → length record < length header →
    ∃ e s', read_metadata metadata_file s = Raise e s'.

(** A column listed twice for a key is twice a column of the rows
    produced for the key. *)
Definition duplicates_reach_rows : Prop :=
  ∀ (s s0 : state) (md : metadata) key columns_info columns col i j,
    read_metadata metadata_file s = Ok md s0 →
    dict_get md key = Some columns_info →
    column_names columns_info = inr columns →
    i ≠ j → columns !! i = Some col → columns !! j = Some col →
    ∀ σ data σ1 r d,
      extract_data key.1 columns σ = Ok data σ1 →
      r ∈ data → heap σ1 !! r = Some d →
      ∃ i' j', i' ≠ j' ∧ dict_keys d !! i' = Some col ∧ dict_keys d !! j' = Some col.

(** ** Metadata files given by their triples *)

(** The record of one line [source_table,target_table,column_name]. *)
Definition triple_record (t : string * string * string) : list string :=
  [t.1.1; t.1.2; t.2].

(** The key a triple is grouped under. *)
Definition triple_key (t : string * string * string) : pyval * pyval :=
  (PyStr t.1.1, PyStr t.1.2).

(** A header without [column_name], and one without [source_table]. *)
Definition no_column_file : csv_file :=
  [["source_table"; "target_table"]; ["orders"; "orders_dw"]].

Definition no_source_file : csv_file :=
  [["target_table"; "column_name"]; ["orders_dw"; "id"]].

(** * Properties *)

(** ** Dictionaries *)

Section PyDictFacts.
Context {K V : Type} `{EqDecision K}.
Implicit Types (d : pydict K V) (k : K) (v : V).

Lemma dict_get_None d k : dict_get d k = None ↔ k ∉ dict_keys d.
Proof.
  induction d as [|[k' v] d IH]; simpl.
  - split; [intros _; apply not_elem_of_nil | done].
  - case_decide as Hk.
    + subst. split; [done | intros H; destruct H; left].
    + rewrite IH, not_elem_of_cons. split; [by split | by intros [_ ?]].
Qed.

Lemma dict_get_is_Some d k : is_Some (dict_get d k) ↔ k ∈ dict_keys d.
Proof.
  rewrite <- not_eq_None_Some, dict_get_None.
  split; [apply dec_stable | tauto].
Qed.

Lemma dict_mem_keys d k : dict_mem d k = true ↔ k ∈ dict_keys d.
Proof.
  unfold dict_mem. rewrite bool_decide_eq_true. apply dict_get_is_Some.
Qed.

Lemma dict_get_set_eq d k v : dict_get (dict_set d k v) k = Some v.
Proof.
  induction d as [|[k' v'] d IH]; simpl.
  - by rewrite decide_True by done.
  - case_decide as Hk; simpl;
      [by rewrite decide_True by done | by rewrite decide_False by done].
Qed.

Lemma dict_get_set_ne d k k' v :
  k ≠ k' → dict_get (dict_set d k v) k' = dict_get d k'.
Proof.
  intros Hne. induction d as [|[k0 v0] d IH]; simpl.
  - by rewrite decide_False by done.
  - destruct (decide (k0 = k)) as [->|Hk]; simpl.
    + by rewrite !decide_False by done.
    + by rewrite IH.
Qed.

(** Assigning to a key that is present keeps the keys as they are. *)
Lemma dict_keys_set_in d k v :
  k ∈ dict_keys d → dict_keys (dict_set d k v) = dict_keys d.
Proof.
  unfold dict_keys. induction d as [|[k' v'] d IH]; intros H.
  - by apply elem_of_nil in H.
  - rewrite fmap_cons in H. cbn [dict_set].
    case_decide as Hk; rewrite !fmap_cons; [done |].
    apply elem_of_cons in H as [->|H]; [done |]. by rewrite IH.
Qed.

(** Assigning to a new key appends it. *)
Lemma dict_keys_set_notin d k v :
  k ∉ dict_keys d → dict_keys (dict_set d k v) = dict_keys d ++ [k].
Proof.
  unfold dict_keys. induction d as [|[k' v'] d IH]; intros H; [done |].
  rewrite fmap_cons in H. apply not_elem_of_cons in H as [Hne H].
  cbn [dict_set]. rewrite decide_False by done.
  rewrite !fmap_cons. by rewrite IH.
Qed.

Lemma dict_keys_set d k v :
  dict_keys (dict_set d k v) =
    if decide (k ∈ dict_keys d) then dict_keys d else dict_keys d ++ [k].
Proof.
  case_decide; [by apply dict_keys_set_in | by apply dict_keys_set_notin].
Qed.

Lemma elem_of_dict_keys_set d k v k' :
  k' ∈ dict_keys (dict_set d k v) ↔ k' ∈ dict_keys d ∨ k' = k.
Proof.
  rewrite dict_keys_set. case_decide as Hk.
  - split; [tauto | intros [?| ->]; done].
  - rewrite elem_of_app, list_elem_of_singleton. done.
Qed.

Lemma dict_wf_nil : dict_wf ([] : pydict K V).
Proof. apply NoDup_nil_2. Qed.

Lemma dict_wf_set d k v : dict_wf d → dict_wf (dict_set d k v).
Proof.
  unfold dict_wf. intros Hwf. rewrite dict_keys_set. case_decide as Hk; [done |].
  apply NoDup_app. split_and!; [done | | apply NoDup_singleton].
  intros x Hx Hx'. apply list_elem_of_singleton in Hx'. by subst.
Qed.

(** The later of two assignments to one key wins. *)
Lemma dict_set_set d k v v' :
  dict_set (dict_set d k v) k v' = dict_set d k v'.
Proof.
  induction d as [|[k0 v0] d IH]; simpl.
  - by rewrite decide_True by done.
  - case_decide as Hk; simpl.
    + by rewrite decide_True by done.
    + by rewrite decide_False, IH by done.
Qed.

Lemma length_dict_set_in d k v :
  k ∈ dict_keys d → length (dict_set d k v) = length d.
Proof.
  intros H. apply (dict_keys_set_in d k v) in H.
  apply (f_equal length) in H. unfold dict_keys in H.
  by rewrite !length_fmap in H.
Qed.

Lemma length_dict_set_notin d k v :
  k ∉ dict_keys d → length (dict_set d k v) = S (length d).
Proof.
  intros H. apply (dict_keys_set_notin d k v) in H.
  apply (f_equal length) in H. unfold dict_keys in H.
  rewrite length_app, !length_fmap in H. simpl in H. lia.
Qed.
End PyDictFacts.

Section DistinctFacts.
Context {A : Type} `{EqDecision A}.
Implicit Types (l acc : list A) (x : A).

Lemma elem_of_foldl_add_new acc l x :
  x ∈ foldl add_new acc l ↔ x ∈ acc ∨ x ∈ l.
Proof.
  revert acc. induction l as [|y l IH]; intros acc; simpl.
  - rewrite elem_of_nil. tauto.
  - rewrite IH, elem_of_cons. unfold add_new. case_decide as Hy.
    + split; [tauto | intros [?|[->|?]]; tauto].
    + rewrite elem_of_app, list_elem_of_singleton. tauto.
Qed.

Lemma NoDup_foldl_add_new acc l : NoDup acc → NoDup (foldl add_new acc l).
Proof.
  revert acc. induction l as [|y l IH]; intros acc Hacc; simpl; [done |].
  apply IH. unfold add_new. case_decide as Hy; [done |].
  apply NoDup_app. split_and!; [done | | apply NoDup_singleton].
  intros x Hx Hx'. apply list_elem_of_singleton in Hx'. by subst.
Qed.

Lemma foldl_add_new_NoDup acc l :
  NoDup (acc ++ l) → foldl add_new acc l = acc ++ l.
Proof.
  revert acc. induction l as [|y l IH]; intros acc Hnd; simpl.
  - by rewrite app_nil_r.
  - unfold add_new. rewrite decide_False.
    + rewrite IH; rewrite <- app_assoc; done.
    + apply NoDup_app in Hnd as (_ & Hnd & _). intros Hy.
      apply (Hnd y Hy). left.
Qed.

Lemma length_foldl_add_new acc l :
  length (foldl add_new acc l) ≤ length acc + length l.
Proof.
  revert acc. induction l as [|y l IH]; intros acc; simpl; [lia |].
  etrans; [apply IH |]. unfold add_new. case_decide.
  - lia.
  - rewrite length_app. simpl. lia.
Qed.

Lemma elem_of_distinct l x : x ∈ distinct l ↔ x ∈ l.
Proof.
  unfold distinct. rewrite elem_of_foldl_add_new, elem_of_nil. tauto.
Qed.

Lemma NoDup_distinct l : NoDup (distinct l).
Proof. apply NoDup_foldl_add_new, NoDup_nil_2. Qed.

Lemma distinct_NoDup l : NoDup l → distinct l = l.
Proof. intros Hl. by apply (foldl_add_new_NoDup []). Qed.

Lemma length_distinct l : length (distinct l) ≤ length l.
Proof. apply (length_foldl_add_new []). Qed.
End DistinctFacts.

(** ** Dictionaries built by a loop of assignments *)

Section DictFold.
Context {K V A : Type} `{EqDecision K}.
Implicit Types (d : pydict K V) (l : list A).

Lemma dict_keys_foldl_set (key : A → K) (val : A → V) d l :
  dict_keys (foldl (λ d a, dict_set d (key a) (val a)) d l) =
    foldl add_new (dict_keys d) (key <$> l).
Proof.
  revert d. induction l as [|a l IH]; intros d; simpl; [done |].
  rewrite IH. f_equal. unfold add_new. apply dict_keys_set.
Qed.

Lemma dict_wf_foldl_set (key : A → K) (val : A → V) d l :
  dict_wf d → dict_wf (foldl (λ d a, dict_set d (key a) (val a)) d l).
Proof.
  unfold dict_wf. rewrite dict_keys_foldl_set. apply NoDup_foldl_add_new.
Qed.

Lemma dict_get_foldl_set_notin (key : A → K) (val : A → V) d l k :
  k ∉ key <$> l →
  dict_get (foldl (λ d a, dict_set d (key a) (val a)) d l) k = dict_get d k.
Proof.
  revert d. induction l as [|a l IH]; intros d Hk; simpl; [done |].
  rewrite fmap_cons in Hk. apply not_elem_of_cons in Hk as [Hne Hk].
  rewrite IH by done. by apply dict_get_set_ne.
Qed.

(** When the value assigned depends on the key only, the order of the
    assignments does not show in what a key maps to. *)
Lemma dict_get_foldl_set_in (key : A → K) (val : K → V) d l k :
  k ∈ key <$> l →
  dict_get (foldl (λ d a, dict_set d (key a) (val (key a))) d l) k = Some (val k).
Proof.
  revert d. induction l as [|a l IH]; intros d Hk; simpl.
  - by apply elem_of_nil in Hk.
  - destruct (decide (k ∈ key <$> l)) as [Hin|Hnotin]; [by apply IH |].
    rewrite fmap_cons in Hk. apply elem_of_cons in Hk as [->|Hk]; [| done].
    rewrite (dict_get_foldl_set_notin key (val ∘ key)) by done.
    apply dict_get_set_eq.
Qed.
End DictFold.

(** ** The placeholder rows *)

Lemma dict_keys_sample_row columns : dict_keys (sample_row columns) = distinct columns.
Proof.
  unfold sample_row, distinct.
  rewrite (dict_keys_foldl_set id sample_value). by rewrite list_fmap_id.
Qed.

Lemma elem_of_dict_keys_sample_row columns k :
  k ∈ dict_keys (sample_row columns) ↔ k ∈ columns.
Proof. rewrite dict_keys_sample_row. apply elem_of_distinct. Qed.

Lemma dict_wf_sample_row columns : dict_wf (sample_row columns).
Proof. unfold dict_wf. rewrite dict_keys_sample_row. apply NoDup_distinct. Qed.

Lemma dict_get_sample_row columns col :
  col ∈ columns → dict_get (sample_row columns) col = Some (sample_value col).
Proof.
  intros Hcol. unfold sample_row.
  apply (dict_get_foldl_set_in id sample_value). by rewrite list_fmap_id.
Qed.

Lemma length_sample_row columns : length (sample_row columns) = length (distinct columns).
Proof.
  rewrite <- dict_keys_sample_row. unfold dict_keys. by rewrite length_fmap.
Qed.


(** ** Timestamps *)

Lemma is_digit_digit_char d : (d < 10)%N → is_digit (digit_char d) = true.
Proof.
  intros Hd. unfold is_digit, digit_char.
  rewrite N_ascii_embedding by lia.
  apply andb_true_intro. split; apply N.leb_le; lia.
Qed.

Lemma ndigits_fuel_le fuel w n :
  (n < 10 ^ N.of_nat w)%N → 1 ≤ w → ndigits_fuel fuel n ≤ w.
Proof.
  revert w n. induction fuel as [|fuel IH]; intros w n Hn Hw; simpl; [done |].
  destruct (N.ltb_spec n 10) as [Hlt|Hge]; [done |].
  destruct w as [|[|w]]; [lia | simpl in Hn; lia |].
  apply le_n_S, IH; [| lia].
  rewrite Nat2N.inj_succ, N.pow_succ_r' in Hn.
  apply N.Div0.div_lt_upper_bound. lia.
Qed.

Lemma fmt_0d_low_digits w n :
  (n < 10 ^ N.of_nat w)%N → 1 ≤ w → fmt_0d w n = low_digits w n.
Proof.
  intros Hn Hw. unfold fmt_0d, ndigits.
  by rewrite Nat.max_l by by apply ndigits_fuel_le.
Qed.

Lemma Forall_low_digits w n : Forall (λ c, is_digit c = true) (low_digits w n).
Proof.
  revert n. induction w as [|w IH]; intros n; simpl; [constructor |].
  apply Forall_app. split; [apply IH |].
  apply Forall_singleton, is_digit_digit_char.
  apply N.mod_upper_bound. lia.
Qed.

Lemma low_digits_head w n :
  ∃ c l, low_digits (S w) n = c :: l ∧ is_digit c = true.
Proof.
  pose proof (Forall_low_digits (S w) n) as Hall.
  destruct (low_digits (S w) n) as [|c l] eqn:Heq.
  - apply (f_equal length) in Heq. simpl in Heq.
    rewrite length_app in Heq. simpl in Heq. lia.
  - exists c, l. split; [done |]. by apply Forall_cons in Hall as [? _].
Qed.

(** Whatever the clock reads, the text [isoformat] returns begins with a
    digit. *)
Lemma isoformat_head t :
  ∃ c l, isoformat_chars t = c :: l ∧ is_digit c = true.
Proof.
  unfold isoformat_chars, fmt_0d at 1.
  destruct (Nat.max_spec 4 (ndigits (year t))) as [[_ ->]|[_ ->]].
  - destruct (ndigits (year t)) as [|w] eqn:Hw.
    + unfold ndigits in Hw. destruct (N.size_nat (year t)); simpl in Hw; [done |].
      by destruct (year t <? 10)%N.
    + destruct (low_digits_head w (year t)) as (c & l & -> & Hc).
      eexists _, _. split; [reflexivity | done].
  - destruct (low_digits_head 3 (year t)) as (c & l & -> & Hc).
    eexists _, _. split; [reflexivity | done].
Qed.

Lemma isoformat_not_sample t col : isoformat t ≠ sample_value col.
Proof.
  unfold isoformat, sample_value. intros Heq.
  destruct (isoformat_head t) as (c & l & Hcl & Hc).
  rewrite Hcl in Heq. simpl in Heq. injection Heq as -> _.
  discriminate Hc.
Qed.

(** For a [datetime] within its ranges, [isoformat] returns an ISO 8601
    date and time. *)
Lemma is_iso8601_isoformat t : valid_datetime t → is_iso8601 (isoformat t) = true.
Proof.
  intros (Hy & Hm & Hd & Hh & Hn & Hs & Hu).
  unfold is_iso8601, isoformat. rewrite list_ascii_of_string_of_list_ascii.
  unfold isoformat_chars.
  rewrite (fmt_0d_low_digits 4), !(fmt_0d_low_digits 2) by (simpl; lia).
  pose proof (Forall_low_digits 4 (year t)) as Fy.
  pose proof (Forall_low_digits 2 (month t)) as Fm.
  pose proof (Forall_low_digits 2 (day t)) as Fd.
  pose proof (Forall_low_digits 2 (hour t)) as Fh.
  pose proof (Forall_low_digits 2 (minute t)) as Fn.
  pose proof (Forall_low_digits 2 (second t)) as Fs.
  pose proof (Forall_low_digits 6 (microsecond t)) as Fu.
  destruct (N.eqb_spec (microsecond t) 0) as [Hz|Hnz].
  - cbn [low_digits app] in *.
    repeat match goal with
           | H : Forall _ (_ :: _) |- _ => apply Forall_cons in H as [? H]
           end.
    cbn [iso8601_chars forallb].
    repeat match goal with H : is_digit _ = true |- _ => rewrite H; clear H end.
    reflexivity.
  - rewrite (fmt_0d_low_digits 6) by (simpl; lia).
    cbn [low_digits app] in *.
    repeat match goal with
           | H : Forall _ (_ :: _) |- _ => apply Forall_cons in H as [? H]
           end.
    cbn [iso8601_chars forallb].
    repeat match goal with H : is_digit _ = true |- _ => rewrite H; clear H end.
    reflexivity.
Qed.

(** ** The loop of [transform_data] *)

Lemma for_each_stamp data s :
  for_each data (λ r, let* t := now in set_item r processed_at (isoformat t)) s =
    Ok () {| files := files s; clock := clock s; ticks := length data + ticks s;
             heap := stamp_rows (clock s) (ticks s) data (heap s);
             trace := trace s |}.
Proof.
  revert s. induction data as [|r data IH]; intros s.
  - by destruct s.
  - cbn [for_each]. unfold bind at 1. unfold bind at 1.
    cbn [now set_item set_heap files clock ticks heap trace].
    rewrite IH. cbn [files clock ticks heap trace stamp_rows length].
    f_equal. f_equal. apply Nat.add_succ_r.
Qed.

Lemma transform_data_run data s :
  transform_data data s =
    Ok data {| files := files s; clock := clock s; ticks := length data + ticks s;
               heap := stamp_rows (clock s) (ticks s) data (heap s);
               trace := trace s ++ [EPrint LTransforming] |}.
Proof.
  unfold transform_data, bind, print. rewrite for_each_stamp. done.
Qed.

Lemma length_stamp_rows clk n data h : length (stamp_rows clk n data h) = length h.
Proof.
  revert n h. induction data as [|r data IH]; intros n h; simpl; [done |].
  by rewrite IH, length_alter.
Qed.

(** A row that is not in the sequence is left as it is. *)
Lemma stamp_rows_lookup_notin clk n data h r :
  r ∉ data → stamp_rows clk n data h !! r = h !! r.
Proof.
  revert n h. induction data as [|r' data IH]; intros n h Hr; simpl; [done |].
  apply not_elem_of_cons in Hr as [Hne Hr].
  rewrite IH by done. by apply list_lookup_alter_ne.
Qed.

(** A row of the sequence ends with the stamp of its last occurrence:
    every write to [processed_at] replaces the one before. *)
Lemma stamp_rows_lookup_in clk n data h r d :
  r ∈ data → h !! r = Some d →
  ∃ j, last_at data r j ∧
       stamp_rows clk n data h !! r = Some (stamp (clk (j + n)) d).
Proof.
  revert n h d. induction data as [|r' data IH]; intros n h d Hr Hd.
  - by apply elem_of_nil in Hr.
  - cbn [stamp_rows]. destruct (decide (r ∈ data)) as [Hin|Hnotin].
    + destruct (decide (r' = r)) as [->|Hne].
      * destruct (IH (S n) (alter (stamp (clk n)) r h) (stamp (clk n) d) Hin)
          as (j & [Hj Hlast] & Hlook).
        { by rewrite list_lookup_alter_eq, Hd. }
        exists (S j). split.
        -- split; [done |]. intros [|j'] Hlt; [lia |]. apply Hlast. lia.
        -- rewrite Hlook. unfold stamp. rewrite dict_set_set.
           by rewrite Nat.add_succ_r.
      * destruct (IH (S n) (alter (stamp (clk n)) r' h) d Hin)
          as (j & [Hj Hlast] & Hlook).
        { by rewrite list_lookup_alter_ne. }
        exists (S j). split.
        -- split; [done |]. intros [|j'] Hlt; [lia |]. apply Hlast. lia.
        -- rewrite Hlook. by rewrite Nat.add_succ_r.
    + apply elem_of_cons in Hr as [->|Hr]; [| done].
      exists 0. split.
      * split; [done |]. intros [|j'] Hlt; [lia |]. simpl.
        intros Hj'. apply Hnotin. by eapply list_elem_of_lookup_2.
      * rewrite stamp_rows_lookup_notin by done.
        by rewrite list_lookup_alter_eq, Hd.
Qed.

Lemma last_at_lt data r j : last_at data r j → j < length data.
Proof. intros [Hj _]. by eapply lookup_lt_Some. Qed.

(** ** One key: extract, transform, load *)

Lemma extract_data_run table columns s :
  extract_data table columns s =
    Ok [length (heap s); S (length (heap s)); S (S (length (heap s)))]
       {| files := files s; clock := clock s; ticks := ticks s;
          heap := heap s ++ [sample_row columns; sample_row columns; sample_row columns];
          trace := trace s ++ [EPrint (LExtracting table columns)] |}.
Proof.
  unfold extract_data, bind, print. cbn.
  rewrite !length_app. cbn [length]. rewrite <- !app_assoc. cbn [app].
  by rewrite !Nat.add_1_r.
Qed.

Lemma stamp_rows_fresh clk n h a b c :
  stamp_rows clk n [length h; S (length h); S (S (length h))] (h ++ [a; b; c]) =
    h ++ [stamp (clk n) a; stamp (clk (S n)) b; stamp (clk (S (S n))) c].
Proof.
  cbn [stamp_rows]. rewrite !alter_app_r_alt by lia.
  replace (length h - length h) with 0 by lia.
  replace (S (length h) - length h) with 1 by lia.
  by replace (S (S (length h)) - length h) with 2 by lia.
Qed.

Lemma for_each_print_rows data s :
  for_each data (λ r, let* d := deref r in print (LRow d)) s =
    Ok () {| files := files s; clock := clock s; ticks := ticks s; heap := heap s;
             trace := trace s ++ ((λ r, EPrint (LRow (heap s !!! r))) <$> data) |}.
Proof.
  revert s. induction data as [|r data IH]; intros s.
  - cbn. rewrite app_nil_r. by destruct s.
  - cbn [for_each]. unfold bind at 1. unfold bind at 1.
    cbn [deref print]. rewrite IH. unfold log.
    cbn [files clock ticks heap trace]. by rewrite <- app_assoc.
Qed.

Lemma load_data_run table data s :
  load_data table data s =
    Ok () {| files := files s; clock := clock s; ticks := ticks s; heap := heap s;
             trace := trace s ++ EPrint (LLoading table) ::
                        ((λ r, EPrint (LRow (heap s !!! r))) <$> data) |}.
Proof.
  unfold load_data, bind, print. rewrite for_each_print_rows. unfold log.
  cbn [files clock ticks heap trace]. by rewrite <- app_assoc.
Qed.

Lemma lookup_total_fresh (h : list row) a b c :
  (h ++ [a; b; c]) !!! length h = a ∧
  (h ++ [a; b; c]) !!! S (length h) = b ∧
  (h ++ [a; b; c]) !!! S (S (length h)) = c.
Proof.
  rewrite !lookup_total_app_r by lia.
  replace (length h - length h) with 0 by lia.
  replace (S (length h) - length h) with 1 by lia.
  replace (S (S (length h)) - length h) with 2 by lia.
  done.
Qed.

Lemma main_body_run key columns_info columns s :
  column_names columns_info = inr columns →
  main_body (key, columns_info) s =
    Ok () {| files := files s; clock := clock s; ticks := 3 + ticks s;
             heap := heap s ++ loaded_rows (clock s) (ticks s) columns;
             trace := trace s ++ key_trace (clock s) (ticks s) key.1 key.2 columns |}.
Proof.
  intros Hcols. destruct key as [source_table target_table].
  unfold main_body. unfold bind at 1. unfold lift. rewrite Hcols.
  unfold bind at 1. rewrite extract_data_run.
  unfold bind at 1. rewrite transform_data_run.
  rewrite load_data_run. cbn [files clock ticks heap trace length].
  rewrite stamp_rows_fresh.
  destruct (lookup_total_fresh (heap s)
              (stamp (clock s (ticks s)) (sample_row columns))
              (stamp (clock s (S (ticks s))) (sample_row columns))
              (stamp (clock s (S (S (ticks s)))) (sample_row columns)))
    as (Ha & Hb & Hc).
  cbn [fmap list_fmap]. rewrite Ha, Hb, Hc.
  unfold key_trace, loaded_rows. cbn [fmap list_fmap compose fst snd app].
  by rewrite <- !app_assoc.
Qed.

Lemma main_body_ok_inv key columns_info s s' :
  main_body (key, columns_info) s = Ok () s' →
  ∃ columns, column_names columns_info = inr columns.
Proof.
  destruct key as [source_table target_table].
  unfold main_body. unfold bind at 1. unfold lift.
  destruct (column_names columns_info) as [e|columns]; [done | by exists columns].
Qed.

Lemma main_body_raise key columns_info e s :
  column_names columns_info = inl e →
  main_body (key, columns_info) s = Raise e s.
Proof.
  intros He. destruct key as [source_table target_table].
  unfold main_body. unfold bind at 1. unfold lift. by rewrite He.
Qed.

(** ** The loop of [main] *)

Lemma for_each_main_body_run md plan s :
  plan_of md = inr plan →
  for_each md main_body s =
    Ok () {| files := files s; clock := clock s; ticks := 3 * length plan + ticks s;
             heap := heap s ++ keys_rows (clock s) (ticks s) plan;
             trace := trace s ++ keys_trace (clock s) (ticks s) plan |}.
Proof.
  revert plan s. induction md as [|[key columns_info] md IH]; intros plan s Hplan.
  - injection Hplan as <-. cbn. rewrite !app_nil_r. by destruct s.
  - cbn [plan_of] in Hplan.
    destruct (column_names columns_info) as [e|columns] eqn:Hcols; [done |].
    destruct (plan_of md) as [e|plan'] eqn:Hplan'; [done |].
    injection Hplan as <-.
    cbn [for_each]. unfold bind. rewrite (main_body_run _ _ _ _ Hcols).
    rewrite (IH plan') by done.
    cbn [files clock ticks heap trace keys_rows keys_trace length].
    rewrite <- !app_assoc. do 2 f_equal. lia.
Qed.

Lemma for_each_main_body_ok_inv md s s' :
  for_each md main_body s = Ok () s' → ∃ plan, plan_of md = inr plan.
Proof.
  revert s. induction md as [|[key columns_info] md IH]; intros s Hrun.
  - by exists [].
  - cbn [for_each] in Hrun. unfold bind in Hrun. cbn [plan_of].
    destruct (column_names columns_info) as [e|columns] eqn:Hcols.
    + by rewrite (main_body_raise _ _ _ _ Hcols) in Hrun.
    + rewrite (main_body_run _ _ _ _ Hcols) in Hrun.
      destruct (IH _ Hrun) as [plan ->]. by eexists.
Qed.

Lemma main_run f md plan s :
  files s metadata_file = Some f →
  read_metadata_rows [] (DictReader f) = inr md →
  plan_of md = inr plan →
  main s =
    Ok () {| files := files s; clock := clock s; ticks := 3 * length plan + ticks s;
             heap := heap s ++ keys_rows (clock s) (ticks s) plan;
             trace := trace s ++ EOpen metadata_file ::
                        keys_trace (clock s) (ticks s) plan |}.
Proof.
  intros Hf Hmd Hplan. unfold main, bind, read_metadata, lift.
  rewrite Hf, Hmd, (for_each_main_body_run _ _ _ Hplan).
  unfold log. cbn [files clock ticks heap trace]. by rewrite <- app_assoc.
Qed.

Lemma main_ok_inv s s' :
  main s = Ok () s' →
  ∃ f md plan, files s metadata_file = Some f ∧
               read_metadata_rows [] (DictReader f) = inr md ∧
               plan_of md = inr plan.
Proof.
  unfold main, bind, read_metadata, lift. intros Hrun.
  destruct (files s metadata_file) as [f|] eqn:Hf; [| done].
  destruct (read_metadata_rows [] (DictReader f)) as [e|md] eqn:Hmd; [done |].
  destruct (for_each_main_body_ok_inv _ _ _ Hrun) as [plan Hplan].
  by exists f, md, plan.
Qed.

Lemma filter_is_open_keys_trace clk n plan :
  filter (λ ev, is_open ev = true) (keys_trace clk n plan) = [].
Proof.
  revert n. induction plan as [|[key columns] plan IH]; intros n; [done |].
  cbn [keys_trace]. rewrite filter_app, IH. done.
Qed.

(** ** The rows of the reader *)

Lemma fst_zip_take {A B} (l : list A) (k : list B) :
  (zip l k).*1 = take (length k) l.
Proof.
  revert k. induction l as [|x l IH]; intros [|y k]; simpl; try done.
  by rewrite IH.
Qed.

(** The dictionary of a row has the field names of the header as its
    keys, however many fields the record has. *)
Lemma elem_of_dict_reader_row_keys fieldnames record name :
  name ∈ dict_keys (cells (dict_reader_row fieldnames record)) ↔ name ∈ fieldnames.
Proof.
  unfold dict_reader_row.
  pose proof (dict_keys_foldl_set (V := pyval) fst (λ kv : string * string, PyStr kv.2)
                [] (zip fieldnames record)) as Hzip.
  cbn beta in Hzip.
  destruct (Nat.ltb_spec (length fieldnames) (length record)) as [Hlong|Hle];
    [| destruct (Nat.ltb_spec (length record) (length fieldnames)) as [Hshort|Hge]];
    cbn [cells].
  - rewrite Hzip, fst_zip by lia. apply (elem_of_distinct fieldnames).
  - pose proof (dict_keys_foldl_set (V := pyval) id (λ _ : string, PyNone)
                  (foldl (λ d kv, dict_set d kv.1 (PyStr kv.2)) []
                     (zip fieldnames record))
                  (drop (length record) fieldnames)) as Hdrop.
    cbn beta in Hdrop. unfold id in Hdrop at 1. rewrite Hdrop.
    rewrite list_fmap_id, elem_of_foldl_add_new, Hzip, fst_zip_take.
    rewrite elem_of_foldl_add_new.
    rewrite <- (take_drop (length record) fieldnames) at 3.
    rewrite elem_of_app. cbn. rewrite elem_of_nil. tauto.
  - rewrite Hzip, fst_zip by lia. apply (elem_of_distinct fieldnames).
Qed.

Lemma row_get_dict_reader_row fieldnames record name :
  name ∈ fieldnames → ∃ v, row_get (dict_reader_row fieldnames record) name = inr v.
Proof.
  intros Hname. unfold row_get.
  apply (elem_of_dict_reader_row_keys fieldnames record) in Hname.
  apply dict_get_is_Some in Hname as [v ->]. by exists v.
Qed.

Lemma row_get_dict_reader_row_absent fieldnames record name :
  name ∉ fieldnames →
  row_get (dict_reader_row fieldnames record) name = inl (KeyError name).
Proof.
  intros Hname. unfold row_get.
  rewrite <- (elem_of_dict_reader_row_keys fieldnames record) in Hname.
  apply dict_get_None in Hname. by rewrite Hname.
Qed.

(** A field the record is too short for reads as [None]. *)
Lemma row_get_dict_reader_row_short fieldnames record name :
  name ∈ drop (length record) fieldnames →
  row_get (dict_reader_row fieldnames record) name = inr PyNone.
Proof.
  intros Hname. unfold row_get, dict_reader_row.
  assert (length record < length fieldnames) as Hshort.
  { destruct (decide (length record < length fieldnames)) as [|Hge]; [done |].
    rewrite drop_ge in Hname by lia. by apply elem_of_nil in Hname. }
  destruct (Nat.ltb_spec (length fieldnames) (length record)) as [Hlong|_]; [lia |].
  destruct (Nat.ltb_spec (length record) (length fieldnames)) as [_|Hge]; [| lia].
  cbn [cells].
  pose proof (dict_get_foldl_set_in (V := pyval) id (λ _ : string, PyNone)
                (foldl (λ d kv, dict_set d kv.1 (PyStr kv.2)) []
                   (zip fieldnames record))
                (drop (length record) fieldnames) name) as Hget.
  cbn beta in Hget. unfold id in Hget at 2. rewrite Hget; [done |].
  by rewrite list_fmap_id.
Qed.

Lemma row_key_dict_reader_row fieldnames record :
  "source_table" ∈ fieldnames → "target_table" ∈ fieldnames →
  ∃ key, row_key (dict_reader_row fieldnames record) = inr key.
Proof.
  intros Hsrc Htgt. unfold row_key.
  destruct (row_get_dict_reader_row fieldnames record _ Hsrc) as [src ->].
  destruct (row_get_dict_reader_row fieldnames record _ Htgt) as [tgt ->].
  by eexists.
Qed.

(** ** The grouping of [read_metadata] *)

Lemma read_metadata_step_inv md r md' :
  read_metadata_step md r = inr md' →
  ∃ key, row_key r = inr key ∧
         dict_keys md' = add_new (dict_keys md) key ∧
         ∀ k, dict_get md' k =
                if decide (k = key) then Some (default [] (dict_get md k) ++ [r])
                else dict_get md k.
Proof.
  unfold read_metadata_step. destruct (row_key r) as [e|key]; [done |].
  intros Hstep. exists key. split; [done |].
  destruct (dict_mem md key) eqn:Hmem.
  - apply dict_mem_keys in Hmem as Hin.
    apply dict_get_is_Some in Hin as [entries Hentries].
    rewrite Hentries in Hstep. injection Hstep as <-. split.
    + unfold add_new. rewrite decide_True by by apply dict_mem_keys.
      apply dict_keys_set_in. by apply dict_mem_keys.
    + intros k. case_decide as Hk.
      * subst. by rewrite dict_get_set_eq, Hentries.
      * by rewrite dict_get_set_ne.
  - assert (key ∉ dict_keys md) as Hnotin.
    { intros Hin. apply dict_mem_keys in Hin. congruence. }
    rewrite dict_get_set_eq in Hstep. injection Hstep as <-. split.
    + unfold add_new. rewrite decide_False by done.
      rewrite dict_keys_set_in; [by apply dict_keys_set_notin |].
      apply elem_of_dict_keys_set. by right.
    + intros k. case_decide as Hk.
      * subst. rewrite dict_get_set_eq.
        apply dict_get_None in Hnotin. by rewrite Hnotin.
      * by rewrite !dict_get_set_ne.
Qed.

Lemma read_metadata_step_ok md r key :
  row_key r = inr key → ∃ md', read_metadata_step md r = inr md'.
Proof.
  intros Hkey. unfold read_metadata_step. rewrite Hkey.
  destruct (dict_mem md key) eqn:Hmem.
  - apply dict_mem_keys, dict_get_is_Some in Hmem as [entries ->]. by eexists.
  - rewrite dict_get_set_eq. by eexists.
Qed.

Lemma entries_of_cons key r rows :
  entries_of key (r :: rows) =
    if decide (row_key r = inr key) then r :: entries_of key rows
    else entries_of key rows.
Proof. unfold entries_of. by rewrite filter_cons. Qed.

Lemma read_metadata_rows_lookup md rows md' key :
  read_metadata_rows md rows = inr md' →
  dict_get md' key =
    match entries_of key rows with
    | [] => dict_get md key
    | entries => Some (default [] (dict_get md key) ++ entries)
    end.
Proof.
  revert md. induction rows as [|r rows IH]; intros md Hrows.
  - injection Hrows as <-. done.
  - cbn [read_metadata_rows] in Hrows.
    destruct (read_metadata_step md r) as [e|md1] eqn:Hstep; [done |].
    apply read_metadata_step_inv in Hstep as (key' & Hkey' & _ & Hget).
    rewrite (IH _ Hrows), entries_of_cons, Hkey', Hget.
    destruct (decide (key = key')) as [->|Hne].
    + rewrite decide_True by done. cbn [default].
      destruct (entries_of key' rows); unfold id; [done |].
      by rewrite <- app_assoc.
    + rewrite decide_False by congruence. done.
Qed.

Lemma read_metadata_rows_keys md rows md' :
  read_metadata_rows md rows = inr md' →
  ∃ keys, Forall2 (λ r key, row_key r = inr key) rows keys ∧
          dict_keys md' = foldl add_new (dict_keys md) keys.
Proof.
  revert md. induction rows as [|r rows IH]; intros md Hrows.
  - injection Hrows as <-. by exists [].
  - cbn [read_metadata_rows] in Hrows.
    destruct (read_metadata_step md r) as [e|md1] eqn:Hstep; [done |].
    apply read_metadata_step_inv in Hstep as (key & Hkey & Hkeys & _).
    destruct (IH _ Hrows) as (keys & Hall & ->).
    exists (key :: keys). split; [by constructor |]. by rewrite Hkeys.
Qed.

Lemma read_metadata_rows_ok md rows :
  Forall (λ r, ∃ key, row_key r = inr key) rows →
  ∃ md', read_metadata_rows md rows = inr md'.
Proof.
  intros Hall. revert md. induction Hall as [|r rows [key Hkey] _ IH]; intros md.
  - by eexists.
  - cbn [read_metadata_rows].
    destruct (read_metadata_step_ok md r key Hkey) as [md1 ->]. apply IH.
Qed.

Lemma DictReader_row_keys fieldnames records :
  "source_table" ∈ fieldnames → "target_table" ∈ fieldnames →
  Forall (λ r, ∃ key, row_key r = inr key) (DictReader (fieldnames :: records)).
Proof.
  intros Hsrc Htgt. unfold DictReader. apply Forall_fmap, Forall_forall.
  intros record _. by apply row_key_dict_reader_row.
Qed.

(** ** Extract followed by transform *)

Lemma elem_of_fresh (h : list row) r :
  r ∈ [length h; S (length h); S (S (length h))] →
  r - length h < 3 ∧ ∀ l : list row, (h ++ l) !! r = l !! (r - length h).
Proof.
  intros Hr.
  assert (length h ≤ r < 3 + length h) as Hrange.
  { repeat (apply elem_of_cons in Hr as [->|Hr]; [lia |]).
    by apply elem_of_nil in Hr. }
  split; [lia |]. intros l. apply lookup_app_r. lia.
Qed.

Lemma NoDup_fresh_refs h : NoDup (fresh_refs h).
Proof.
  unfold fresh_refs. repeat (apply NoDup_cons; split); try apply NoDup_nil_2;
    rewrite ?not_elem_of_cons; repeat split; try apply not_elem_of_nil; lia.
Qed.

(** The three rows of a key are new objects; extract leaves each with
    the placeholders, transform then stamps each with its own reading of
    the clock. *)
Lemma extract_transform_run table columns s :
  ∃ s1 s2,
    extract_data table columns s = Ok (fresh_refs (heap s)) s1 ∧
    transform_data (fresh_refs (heap s)) s1 = Ok (fresh_refs (heap s)) s2 ∧
    ∀ r, r ∈ fresh_refs (heap s) →
      ∃ i, i < 3 ∧
           heap s1 !! r = Some (sample_row columns) ∧
           heap s2 !! r = Some (stamp (clock s (i + ticks s)) (sample_row columns)).
Proof.
  eexists _, _. rewrite extract_data_run.
  split; [reflexivity |]. rewrite transform_data_run.
  split; [reflexivity |].
  cbn [files clock ticks heap trace]. unfold fresh_refs. rewrite stamp_rows_fresh.
  intros r Hr. destruct (elem_of_fresh (heap s) r Hr) as [Hi Hlook].
  exists (r - length (heap s)). split; [done |]. rewrite !Hlook.
  destruct (r - length (heap s)) as [|[|[|i]]]; [done | done | done | lia].
Qed.

(** ** What [read_metadata] returns *)

Lemma read_metadata_inv f path s md s0 :
  files s path = Some f →
  read_metadata path s = Ok md s0 →
  read_metadata_rows [] (DictReader f) = inr md ∧ s0 = log (EOpen path) s.
Proof.
  intros Hf. unfold read_metadata, lift. rewrite Hf.
  destruct (read_metadata_rows [] (DictReader f)) as [e|md']; [done |].
  intros Hrun. injection Hrun as -> <-. done.
Qed.

Lemma read_metadata_ok f path s md :
  files s path = Some f →
  read_metadata_rows [] (DictReader f) = inr md →
  read_metadata path s = Ok md (log (EOpen path) s).
Proof. intros Hf Hmd. unfold read_metadata, lift. by rewrite Hf, Hmd. Qed.

(** A key maps to the rows of the file that carry it, all of them and in
    the order of the file. *)
Lemma read_metadata_lookup f path s md s0 key :
  files s path = Some f →
  read_metadata path s = Ok md s0 →
  dict_get md key =
    match entries_of key (DictReader f) with
    | [] => None
    | entries => Some entries
    end.
Proof.
  intros Hf Hrun. destruct (read_metadata_inv _ _ _ _ _ Hf Hrun) as [Hmd _].
  by rewrite (read_metadata_rows_lookup _ _ _ key Hmd).
Qed.

Lemma read_metadata_entries f path s md s0 key columns_info :
  files s path = Some f →
  read_metadata path s = Ok md s0 →
  dict_get md key = Some columns_info →
  columns_info = entries_of key (DictReader f).
Proof.
  intros Hf Hrun Hget. rewrite (read_metadata_lookup _ _ _ _ _ key Hf Hrun) in Hget.
  destruct (entries_of key (DictReader f)); [done |]. by injection Hget.
Qed.

Lemma column_names_Forall2 columns_info columns :
  column_names columns_info = inr columns →
  Forall2 (λ r col, row_get r "column_name" = inr col) columns_info columns.
Proof.
  revert columns. induction columns_info as [|r rest IH]; intros columns Hcols.
  - injection Hcols as <-. constructor.
  - cbn [column_names] in Hcols.
    destruct (row_get r "column_name") as [e|col] eqn:Hcol; [done |].
    destruct (column_names rest) as [e|cols]; [done |].
    injection Hcols as <-. constructor; [done | by apply IH].
Qed.

Lemma plan_of_Forall2 md plan :
  plan_of md = inr plan →
  Forall2 (λ item p, p.1 = item.1 ∧ column_names item.2 = inr p.2) md plan.
Proof.
  revert plan. induction md as [|[key columns_info] md IH]; intros plan Hplan.
  - injection Hplan as <-. constructor.
  - cbn [plan_of] in Hplan.
    destruct (column_names columns_info) as [e|columns] eqn:Hcols; [done |].
    destruct (plan_of md) as [e|plan']; [done |].
    injection Hplan as <-. constructor; [done | by apply IH].
Qed.

(** * The claims of the specification *)

(** ** Extract *)

(** C2, as the specification states it, fails when a column name is
    listed twice: extract called with the two columns [id], [id] returns
    rows of one column. *)
Lemma extract_duplicate_column_counterexample :
  (∃ s', extract_data (PyStr "orders") [PyStr "id"; PyStr "id"] (world []) =
           Ok [0; 1; 2] s' ∧
         heap s' = [[(PyStr "id", "sample_id_value")];
                    [(PyStr "id", "sample_id_value")];
                    [(PyStr "id", "sample_id_value")]]) ∧
  ¬ extract_keeps_every_column.
Proof.
  split.
  - eexists. rewrite extract_data_run. split; reflexivity.
  - intros Hclaim.
    destruct (Hclaim (PyStr "orders") [PyStr "id"; PyStr "id"] (world []))
      as (data & s' & Hrun & _ & Hrows).
    rewrite extract_data_run in Hrun. injection Hrun as Hdata Hs'. subst data s'.
    destruct (Hrows 0) as (d & Hd & Hlen & _); [left |].
    injection Hd as <-. discriminate Hlen.
Qed.

(** C2, amended: for every table name and every list of column names,
    extract returns exactly 3 rows, three new objects; each row holds
    exactly the distinct names of the list, in order of first
    occurrence, each mapped to the placeholder made from the name. A row
    has as many columns as the list has distinct names: N for a list of N
    names without repetition, fewer otherwise. *)
Theorem extract_data_rows (table : pyval) (columns : list pyval) (s : state) :
  ∃ data s',
    extract_data table columns s = Ok data s' ∧
    length data = 3 ∧ NoDup data ∧
    ∀ r, r ∈ data →
      heap s !! r = None ∧
      ∃ d, heap s' !! r = Some d ∧
           dict_keys d = distinct columns ∧
           (∀ col, col ∈ dict_keys d ↔ col ∈ columns) ∧
           (∀ col, col ∈ columns → dict_get d col = Some (sample_value col)) ∧
           length d ≤ length columns ∧
           (NoDup columns → dict_keys d = columns ∧ length d = length columns).
Proof.
  destruct (extract_transform_run table columns s) as (s1 & s2 & Hrun & _ & Hrows).
  exists (fresh_refs (heap s)), s1.
  split; [done |]. split; [done |]. split; [apply NoDup_fresh_refs |].
  intros r Hr. split.
  { apply lookup_ge_None. unfold fresh_refs in Hr.
    repeat (apply elem_of_cons in Hr as [->|Hr]; [lia |]). by apply elem_of_nil in Hr. }
  destruct (Hrows r Hr) as (_ & _ & Hd & _).
  exists (sample_row columns). split; [done |].
  split; [apply dict_keys_sample_row |].
  split; [intros col; apply elem_of_dict_keys_sample_row |].
  split; [intros col; apply dict_get_sample_row |].
  split; [rewrite length_sample_row; apply length_distinct |].
  intros Hnodup. rewrite length_sample_row, dict_keys_sample_row.
  by rewrite distinct_NoDup.
Qed.

(** ** Transform *)

Lemma valid_tick_clock n : valid_datetime (tick_clock n).
Proof.
  unfold valid_datetime, tick_clock. cbn.
  repeat split; try lia. apply N.mod_upper_bound. lia.
Qed.

(** C5, as the specification states it, fails on a row that already has
    a field [processed_at]: the rows extract makes for the one column
    [processed_at] have one field before transform and one field after. *)
Lemma transform_existing_field_counterexample :
  (∃ s1 s2,
     extract_data (PyStr "orders") [processed_at] (world []) = Ok [0; 1; 2] s1 ∧
     transform_data [0; 1; 2] s1 = Ok [0; 1; 2] s2 ∧
     length <$> heap s1 = [1; 1; 1] ∧ length <$> heap s2 = [1; 1; 1]) ∧
  ¬ transform_adds_one_field.
Proof.
  split.
  - eexists _, _. rewrite extract_data_run. split; [reflexivity |].
    rewrite transform_data_run. split; [reflexivity |]. split; reflexivity.
  - intros Hclaim.
    destruct (Hclaim [1] two_rows) as (s' & Hrun & Hrows).
    rewrite transform_data_run in Hrun. injection Hrun as Hs'. subst s'.
    destruct (Hrows 1 [(PyStr "id", "2"); (processed_at, "2024-01-01T00:00:00")])
      as (d' & Hd' & Hlen & _); [left | reflexivity |].
    injection Hd' as <-. discriminate Hlen.
Qed.

(** C5, amended: for every row sequence, transform returns the same row
    sequence; in every row of the sequence [processed_at] holds an
    ISO 8601 timestamp afterwards. The field is added, last, to a row
    that had none by that name; in a row that had one its value is
    replaced and no field is added. Every other field of every row is
    unchanged, and so is every row outside the sequence. *)
Theorem transform_data_stamps (data : list ref) (s : state) :
  (∀ n, valid_datetime (clock s n)) →
  ∃ s',
    transform_data data s = Ok data s' ∧
    length (heap s') = length (heap s) ∧
    ∀ r d, heap s !! r = Some d →
      ∃ d', heap s' !! r = Some d' ∧
            (∀ k, k ≠ processed_at → dict_get d' k = dict_get d k) ∧
            if decide (r ∈ data) then
              (∃ ts, dict_get d' processed_at = Some ts ∧ is_iso8601 ts = true) ∧
              dict_keys d' =
                (if decide (processed_at ∈ dict_keys d) then dict_keys d
                 else dict_keys d ++ [processed_at])
            else d' = d.
Proof.
  intros Hclock. eexists. rewrite transform_data_run.
  split; [reflexivity |]. cbn [heap].
  split; [apply length_stamp_rows |].
  intros r d Hd. destruct (decide (r ∈ data)) as [Hin|Hnotin].
  - destruct (stamp_rows_lookup_in (clock s) (ticks s) data (heap s) r d Hin Hd)
      as (j & _ & Hlook).
    eexists. split; [exact Hlook |]. unfold stamp.
    split; [intros k Hk; by apply dict_get_set_ne |].
    split; [| apply dict_keys_set].
    eexists. split; [apply dict_get_set_eq |]. by apply is_iso8601_isoformat.
  - exists d. split; [| done]. by rewrite <- Hd; apply stamp_rows_lookup_notin.
Qed.

Lemma transform_data_stamps_witness :
  ∃ s', transform_data [1; 0; 1] two_rows = Ok [1; 0; 1] s' ∧
        length (heap s') = 2.
Proof.
  destruct (transform_data_stamps [1; 0; 1] two_rows valid_tick_clock)
    as (s' & Hrun & Hlen & _).
  exists s'. split; [exact Hrun | exact Hlen].
Defined.

(** C4: applying transform twice leaves every field other than
    [processed_at] as the first application left it and adds no key: the
    second write to [processed_at] replaces the first, the row keeps the
    stamp of its last occurrence in the second pass, and no row has a key
    twice. *)
Theorem transform_data_twice (data : list ref) (s : state) :
  (∀ r d, heap s !! r = Some d → dict_wf d) →
  ∃ s1 s2,
    transform_data data s = Ok data s1 ∧
    transform_data data s1 = Ok data s2 ∧
    ∀ r d1, heap s1 !! r = Some d1 →
      ∃ d2, heap s2 !! r = Some d2 ∧
            (∀ k, k ≠ processed_at → dict_get d2 k = dict_get d1 k) ∧
            dict_keys d2 = dict_keys d1 ∧
            NoDup (dict_keys d2) ∧
            (r ∈ data →
             ∃ j, last_at data r j ∧
                  dict_get d2 processed_at =
                    Some (isoformat (clock s (j + (length data + ticks s))))).
Proof.
  intros Hwf. eexists _, _. rewrite transform_data_run.
  split; [reflexivity |]. rewrite transform_data_run.
  split; [reflexivity |]. cbn [files clock ticks heap trace].
  intros r d1 Hd1.
  assert (∃ d, heap s !! r = Some d) as [d Hd].
  { apply lookup_lt_is_Some. apply lookup_lt_Some in Hd1.
    by rewrite length_stamp_rows in Hd1. }
  assert (dict_wf d1 ∧ (r ∈ data → processed_at ∈ dict_keys d1)) as [Hwf1 Hkey1].
  { destruct (decide (r ∈ data)) as [Hin|Hnotin].
    - destruct (stamp_rows_lookup_in (clock s) (ticks s) data (heap s) r d Hin Hd)
        as (j & _ & Hlook).
      rewrite Hlook in Hd1. injection Hd1 as <-. unfold stamp. split.
      + apply dict_wf_set. by eapply Hwf.
      + intros _. apply elem_of_dict_keys_set. by right.
    - rewrite stamp_rows_lookup_notin in Hd1 by done.
      split; [by eapply Hwf | done]. }
  destruct (decide (r ∈ data)) as [Hin|Hnotin].
  - destruct (stamp_rows_lookup_in (clock s) (length data + ticks s) data _ r d1 Hin Hd1)
      as (j & Hlast & Hlook).
    eexists. split; [exact Hlook |]. unfold stamp.
    split; [intros k Hk; by apply dict_get_set_ne |].
    split; [apply dict_keys_set_in; auto |].
    split; [by apply dict_wf_set |].
    intros _. exists j. split; [done |]. apply dict_get_set_eq.
  - exists d1.
    split; [by rewrite <- Hd1; apply stamp_rows_lookup_notin |].
    split; [done |]. split; [done |]. split; [done |].
    intros Hin. by destruct Hnotin.
Qed.

Lemma dict_wf_two_rows r d : heap two_rows !! r = Some d → dict_wf d.
Proof.
  unfold dict_wf.
  destruct r as [|[|r]]; intros Hd; [| | done]; injection Hd as <-; cbn.
  - apply NoDup_singleton.
  - apply NoDup_cons. split; [| apply NoDup_singleton].
    rewrite list_elem_of_singleton. discriminate.
Qed.

Lemma transform_data_twice_witness :
  ∃ s1 s2, transform_data [1; 0; 1] two_rows = Ok [1; 0; 1] s1 ∧
           transform_data [1; 0; 1] s1 = Ok [1; 0; 1] s2.
Proof.
  destruct (transform_data_twice [1; 0; 1] two_rows dict_wf_two_rows)
    as (s1 & s2 & Hrun1 & Hrun2 & _).
  exists s1, s2. split; [exact Hrun1 | exact Hrun2].
Defined.

(** C10: when the requested columns include [processed_at], transform
    replaces the placeholder extract put under that name by the
    timestamp: the transformed row has the distinct requested names and
    no other as its keys, [processed_at] once among them, and as many
    fields as before transform. *)
Theorem processed_at_column_overwritten (table : pyval) (columns : list pyval)
    (s : state) :
  processed_at ∈ columns →
  ∃ data s1 s2,
    extract_data table columns s = Ok data s1 ∧
    transform_data data s1 = Ok data s2 ∧
    length data = 3 ∧
    ∀ r, r ∈ data →
      ∃ d0 d t,
        heap s1 !! r = Some d0 ∧ heap s2 !! r = Some d ∧
        dict_get d0 processed_at = Some (sample_value processed_at) ∧
        dict_get d processed_at = Some (isoformat t) ∧
        isoformat t ≠ sample_value processed_at ∧
        dict_keys d = distinct columns ∧ NoDup (dict_keys d) ∧
        length d = length d0 ∧
        ∀ k, k ≠ processed_at → dict_get d k = dict_get d0 k.
Proof.
  intros Hcol.
  destruct (extract_transform_run table columns s) as (s1 & s2 & Hrun1 & Hrun2 & Hrows).
  exists (fresh_refs (heap s)), s1, s2.
  split; [done |]. split; [done |]. split; [done |].
  intros r Hr. destruct (Hrows r Hr) as (i & _ & Hd0 & Hd).
  assert (processed_at ∈ dict_keys (sample_row columns)) as Hkey
    by by apply elem_of_dict_keys_sample_row.
  eexists _, _, _. split; [exact Hd0 |]. split; [exact Hd |]. unfold stamp.
  split; [by apply dict_get_sample_row |].
  split; [apply dict_get_set_eq |].
  split; [apply isoformat_not_sample |].
  split; [by rewrite dict_keys_set_in, dict_keys_sample_row |].
  split; [apply dict_wf_set, dict_wf_sample_row |].
  split; [by apply length_dict_set_in |].
  intros k Hk. by apply dict_get_set_ne.
Qed.

Lemma processed_at_column_overwritten_witness :
  ∃ data s1 s2,
    extract_data (PyStr "orders") [PyStr "id"; processed_at] (world []) = Ok data s1 ∧
    transform_data data s1 = Ok data s2.
Proof.
  destruct (processed_at_column_overwritten (PyStr "orders")
              [PyStr "id"; processed_at] (world []))
    as (data & s1 & s2 & Hrun1 & Hrun2 & _).
  - right. left.
  - exists data, s1, s2. split; [exact Hrun1 | exact Hrun2].
Defined.

(** ** The rows of a key *)

(** C1: for every key of the loaded metadata, the rows the loop of [main]
    makes for the key hold exactly the columns listed for the key when
    extract returns them, and exactly those columns and [processed_at]
    when transform has run; these are the rows load prints. *)
Theorem rows_hold_listed_columns (f : csv_file) (s s0 : state) (md : metadata)
    (key : pyval * pyval) (columns_info : list csv_row) (columns : list pyval)
    (σ : state) :
  files s metadata_file = Some f →
  read_metadata metadata_file s = Ok md s0 →
  dict_get md key = Some columns_info →
  column_names columns_info = inr columns →
  Forall2 (λ r col, row_get r "column_name" = inr col)
    (entries_of key (DictReader f)) columns ∧
  ∃ data σ1 σ2 σ3,
    extract_data key.1 columns σ = Ok data σ1 ∧
    transform_data data σ1 = Ok data σ2 ∧
    load_data key.2 data σ2 = Ok () σ3 ∧
    main_body (key, columns_info) σ = Ok () σ3 ∧
    ∀ r, r ∈ data →
      ∃ d d',
        heap σ1 !! r = Some d ∧ heap σ2 !! r = Some d' ∧
        (∀ col, col ∈ dict_keys d ↔ col ∈ columns) ∧
        (∀ col, col ∈ dict_keys d' ↔ col ∈ columns ∨ col = processed_at) ∧
        EPrint (LRow d') ∈ trace σ3.
Proof.
  intros Hf Hmd Hinfo Hcols. split.
  { rewrite <- (read_metadata_entries _ _ _ _ _ _ _ Hf Hmd Hinfo).
    by apply column_names_Forall2. }
  destruct (extract_transform_run key.1 columns σ) as (σ1 & σ2 & Hrun1 & Hrun2 & Hrows).
  exists (fresh_refs (heap σ)), σ1, σ2. eexists.
  split; [done |]. split; [done |].
  assert (main_body (key, columns_info) σ = load_data key.2 (fresh_refs (heap σ)) σ2)
    as Hbody.
  { destruct key as [source_table target_table]. unfold main_body.
    unfold bind at 1. unfold lift. rewrite Hcols.
    unfold bind at 1. cbn [fst] in Hrun1. rewrite Hrun1.
    unfold bind at 1. by rewrite Hrun2. }
  rewrite Hbody, load_data_run. split; [reflexivity |]. split; [reflexivity |].
  intros r Hr. destruct (Hrows r Hr) as (i & _ & Hd & Hd').
  eexists _, _. split; [exact Hd |]. split; [exact Hd' |].
  split; [intros col; apply elem_of_dict_keys_sample_row |].
  split.
  - intros col. unfold stamp.
    by rewrite elem_of_dict_keys_set, elem_of_dict_keys_sample_row.
  - cbn [trace]. apply elem_of_app. right. right.
    apply list_elem_of_fmap. exists r. split; [| done].
    by rewrite (list_lookup_total_correct _ _ _ Hd').
Qed.

Lemma rows_hold_listed_columns_witness :
  ∃ data σ1 σ2 σ3,
    extract_data (PyStr "orders") [PyStr "id"; PyStr "amount"] (world orders_file) =
      Ok data σ1 ∧
    transform_data data σ1 = Ok data σ2 ∧
    load_data (PyStr "orders_dw") data σ2 = Ok () σ3.
Proof.
  destruct (rows_hold_listed_columns orders_file (world orders_file)
              (log (EOpen metadata_file) (world orders_file))
              [((PyStr "orders", PyStr "orders_dw"), DictReader orders_file)]
              (PyStr "orders", PyStr "orders_dw") (DictReader orders_file)
              [PyStr "id"; PyStr "amount"] (world orders_file))
    as (_ & data & σ1 & σ2 & σ3 & Hrun1 & Hrun2 & Hrun3 & _).
  - reflexivity.
  - reflexivity.
  - reflexivity.
  - reflexivity.
  - exists data, σ1, σ2, σ3. split; [exact Hrun1 |]. split; [exact Hrun2 | exact Hrun3].
Defined.

(** ** The metadata loader *)

(** C3: for every metadata file that loads, a key of the grouping maps to
    the rows of the file with that key, all of them and in the order of
    the file, and the column list [main] derives for the key is the
    [column_name] of these rows one by one: same order, same length, a
    name listed twice is there twice. The keys stand in the order in
    which the file first names them. *)
Theorem derived_columns_follow_file (f : csv_file) (s s0 : state) (md : metadata) :
  files s metadata_file = Some f →
  read_metadata metadata_file s = Ok md s0 →
  (∃ keys, Forall2 (λ r key, row_key r = inr key) (DictReader f) keys ∧
           dict_keys md = distinct keys) ∧
  ∀ key,
    dict_get md key =
      match entries_of key (DictReader f) with
      | [] => None
      | entries => Some entries
      end ∧
    ∀ columns_info columns,
      dict_get md key = Some columns_info →
      column_names columns_info = inr columns →
      columns_info = entries_of key (DictReader f) ∧
      Forall2 (λ r col, row_get r "column_name" = inr col)
        (entries_of key (DictReader f)) columns.
Proof.
  intros Hf Hrun. split.
  - destruct (read_metadata_inv _ _ _ _ _ Hf Hrun) as [Hmd _].
    destruct (read_metadata_rows_keys _ _ _ Hmd) as (keys & Hkeys & Hdom).
    by exists keys.
  - intros key. split; [by eapply read_metadata_lookup |].
    intros columns_info columns Hinfo Hcols.
    pose proof (read_metadata_entries _ _ _ _ _ _ _ Hf Hrun Hinfo) as <-.
    split; [done | by apply column_names_Forall2].
Qed.

Lemma derived_columns_follow_file_witness :
  DictReader dup_file =
    entries_of (PyStr "orders", PyStr "orders_dw") (DictReader dup_file) ∧
  Forall2 (λ r col, row_get r "column_name" = inr col)
    (entries_of (PyStr "orders", PyStr "orders_dw") (DictReader dup_file))
    [PyStr "id"; PyStr "id"].
Proof.
  apply (proj2 (derived_columns_follow_file dup_file (world dup_file)
                  (log (EOpen metadata_file) (world dup_file))
                  [((PyStr "orders", PyStr "orders_dw"), DictReader dup_file)]
                  eq_refl eq_refl)
           (PyStr "orders", PyStr "orders_dw")).
  - reflexivity.
  - reflexivity.
Defined.

(** C7, as the specification states it, fails: for the file whose one row
    has no [column_name] field the loader raises nothing and returns an
    entry whose column is [None]. *)
Lemma short_row_counterexample :
  (∃ r, read_metadata metadata_file (world short_file) =
          Ok [((PyStr "orders", PyStr "orders_dw"), [r])]
             (log (EOpen metadata_file) (world short_file)) ∧
        row_get r "column_name" = inr PyNone) ∧
  ¬ short_row_is_rejected.
Proof.
  split.
  - eexists. split; reflexivity.
  - intros Hclaim.
    destruct (Hclaim [["orders"; "orders_dw"]] ["orders"; "orders_dw"]
                (world short_file)) as (e & s' & Hrun).
    + reflexivity.
    + left.
    + discriminate.
    + cbn. lia.
    + discriminate Hrun.
Qed.

(** C7, amended: when the header names [source_table] and
    [target_table], the metadata loader raises no error, whatever fields
    its rows lack. A field that a row is too short for, [column_name] in
    particular, is read as [None], and the row is kept as an entry of its
    key. *)
Theorem short_row_read_as_None (fieldnames : list string)
    (records : list (list string)) (record : list string) (name : string)
    (s : state) :
  "source_table" ∈ fieldnames → "target_table" ∈ fieldnames →
  files s metadata_file = Some (fieldnames :: records) →
  record ∈ records → record ≠ [] →
  name ∈ drop (length record) fieldnames →
  ∃ md key entries,
    read_metadata metadata_file s = Ok md (log (EOpen metadata_file) s) ∧
    row_get (dict_reader_row fieldnames record) name = inr PyNone ∧
    row_key (dict_reader_row fieldnames record) = inr key ∧
    dict_get md key = Some entries ∧
    dict_reader_row fieldnames record ∈ entries.
Proof.
  intros Hsrc Htgt Hf Hrecord Hnonblank Hname.
  destruct (read_metadata_rows_ok [] _ (DictReader_row_keys _ records Hsrc Htgt))
    as [md Hmd].
  destruct (row_key_dict_reader_row fieldnames record Hsrc Htgt) as [key Hkey].
  pose proof (read_metadata_ok _ _ _ _ Hf Hmd) as Hrun.
  assert (dict_reader_row fieldnames record ∈
            entries_of key (DictReader (fieldnames :: records))) as Hin.
  { unfold entries_of, DictReader. apply list_elem_of_filter. split; [done |].
    apply list_elem_of_fmap. exists record. split; [done |].
    by apply list_elem_of_filter. }
  pose proof (read_metadata_lookup _ _ _ _ _ key Hf Hrun) as Hget.
  destruct (entries_of key (DictReader (fieldnames :: records))) as [|r entries] eqn:He.
  { by apply elem_of_nil in Hin. }
  exists md, key, (r :: entries).
  split; [done |]. split; [by apply row_get_dict_reader_row_short |]. done.
Qed.

Lemma short_row_read_as_None_witness :
  ∃ md key entries,
    read_metadata metadata_file (world short_file) =
      Ok md (log (EOpen metadata_file) (world short_file)) ∧
    row_get (dict_reader_row header ["orders"; "orders_dw"]) "column_name" = inr PyNone ∧
    row_key (dict_reader_row header ["orders"; "orders_dw"]) = inr key ∧
    dict_get md key = Some entries ∧
    dict_reader_row header ["orders"; "orders_dw"] ∈ entries.
Proof.
  apply (short_row_read_as_None header [["orders"; "orders_dw"]]
           ["orders"; "orders_dw"] "column_name" (world short_file)).
  - left.
  - right. left.
  - reflexivity.
  - left.
  - discriminate.
  - left.
Defined.

(** C9, as the specification states it, fails: the file that lists the
    column [id] twice for one key loads as two entries and gives the
    column list [id], [id], but the rows made from it have the column
    [id] once. *)
Lemma duplicate_columns_counterexample :
  (∃ s1 s2,
     read_metadata metadata_file (world dup_file) =
       Ok [((PyStr "orders", PyStr "orders_dw"), DictReader dup_file)]
          (log (EOpen metadata_file) (world dup_file)) ∧
     length (DictReader dup_file) = 2 ∧
     column_names (DictReader dup_file) = inr [PyStr "id"; PyStr "id"] ∧
     extract_data (PyStr "orders") [PyStr "id"; PyStr "id"] (world dup_file) =
       Ok [0; 1; 2] s1 ∧
     transform_data [0; 1; 2] s1 = Ok [0; 1; 2] s2 ∧
     dict_keys <$> heap s1 = [[PyStr "id"]; [PyStr "id"]; [PyStr "id"]] ∧
     dict_keys <$> heap s2 =
       [[PyStr "id"; processed_at]; [PyStr "id"; processed_at];
        [PyStr "id"; processed_at]]) ∧
  ¬ duplicates_reach_rows.
Proof.
  split.
  - eexists _, _. split; [reflexivity |]. split; [reflexivity |].
    split; [reflexivity |]. rewrite extract_data_run. split; [reflexivity |].
    rewrite transform_data_run. split; [reflexivity |]. split; reflexivity.
  - intros Hclaim.
    destruct (Hclaim (world dup_file) (log (EOpen metadata_file) (world dup_file))
                [((PyStr "orders", PyStr "orders_dw"), DictReader dup_file)]
                (PyStr "orders", PyStr "orders_dw") (DictReader dup_file)
                [PyStr "id"; PyStr "id"] (PyStr "id") 0 1
                eq_refl eq_refl eq_refl (O_S 0) eq_refl eq_refl
                (world dup_file) [0; 1; 2] _ 0 [(PyStr "id", "sample_id_value")]
                (extract_data_run _ _ _))
      as (i' & j' & Hne & Hi' & Hj'); [left | reflexivity |].
    destruct i' as [|i'], j' as [|j']; done.
Qed.

(** C9, amended: entries that repeat a [column_name] for one key are kept
    by the loader as separate entries, and the column list derived for
    the key has one name for each entry; the rows made for the key hold
    every listed name once, before and after transform. *)
Theorem duplicate_columns_collapse (f : csv_file) (s s0 : state) (md : metadata)
    (key : pyval * pyval) (columns_info : list csv_row) (columns : list pyval)
    (σ : state) :
  files s metadata_file = Some f →
  read_metadata metadata_file s = Ok md s0 →
  dict_get md key = Some columns_info →
  column_names columns_info = inr columns →
  columns_info = entries_of key (DictReader f) ∧
  length columns = length (entries_of key (DictReader f)) ∧
  ∃ data σ1 σ2,
    extract_data key.1 columns σ = Ok data σ1 ∧
    transform_data data σ1 = Ok data σ2 ∧
    ∀ r, r ∈ data →
      ∃ d d',
        heap σ1 !! r = Some d ∧ heap σ2 !! r = Some d' ∧
        NoDup (dict_keys d) ∧ NoDup (dict_keys d') ∧
        ∀ col, col ∈ columns → col ∈ dict_keys d ∧ col ∈ dict_keys d'.
Proof.
  intros Hf Hmd Hinfo Hcols.
  pose proof (read_metadata_entries _ _ _ _ _ _ _ Hf Hmd Hinfo) as <-.
  split; [done |].
  split; [symmetry; by eapply Forall2_length, column_names_Forall2 |].
  destruct (extract_transform_run key.1 columns σ) as (σ1 & σ2 & Hrun1 & Hrun2 & Hrows).
  exists (fresh_refs (heap σ)), σ1, σ2. split; [done |]. split; [done |].
  intros r Hr. destruct (Hrows r Hr) as (i & _ & Hd & Hd').
  eexists _, _. split; [exact Hd |]. split; [exact Hd' |].
  split; [apply dict_wf_sample_row |].
  split; [apply dict_wf_set, dict_wf_sample_row |].
  intros col Hcol. unfold stamp.
  rewrite elem_of_dict_keys_set, elem_of_dict_keys_sample_row. tauto.
Qed.

Lemma duplicate_columns_collapse_witness :
  DictReader dup_file =
    entries_of (PyStr "orders", PyStr "orders_dw") (DictReader dup_file) ∧
  length [PyStr "id"; PyStr "id"] =
    length (entries_of (PyStr "orders", PyStr "orders_dw") (DictReader dup_file)).
Proof.
  destruct (duplicate_columns_collapse dup_file (world dup_file)
              (log (EOpen metadata_file) (world dup_file))
              [((PyStr "orders", PyStr "orders_dw"), DictReader dup_file)]
              (PyStr "orders", PyStr "orders_dw") (DictReader dup_file)
              [PyStr "id"; PyStr "id"] (world dup_file))
    as (Hentries & Hlen & _).
  - reflexivity.
  - reflexivity.
  - reflexivity.
  - reflexivity.
  - split; [exact Hentries | exact Hlen].
Defined.

(** ** The orchestrator *)

(** C8: for a metadata file that has its header row only, [main] opens
    the file and returns without error: nothing is printed, so extract,
    transform and load are not called, no row is made and the clock is
    not read. *)
Theorem main_header_only (fieldnames : list string) (s : state) :
  files s metadata_file = Some [fieldnames] →
  ∃ s',
    main s = Ok () s' ∧
    trace s' = trace s ++ [EOpen metadata_file] ∧
    heap s' = heap s ∧ ticks s' = ticks s.
Proof.
  intros Hf. eexists.
  rewrite (main_run [fieldnames] [] [] s Hf eq_refl eq_refl).
  split; [reflexivity |]. cbn. by rewrite app_nil_r.
Qed.

Lemma main_header_only_witness :
  ∃ s', main (world [header]) = Ok () s' ∧
        trace s' = trace (world [header]) ++ [EOpen metadata_file] ∧
        heap s' = heap (world [header]) ∧ ticks s' = ticks (world [header]).
Proof. apply (main_header_only header (world [header])). reflexivity. Defined.

(** C6: a run of [main] that returns has opened the metadata file once;
    it has then taken the keys of the grouping one after the other, each
    once, and for each key has printed the lines of extract, of transform
    and of load with its three rows, in that order, before the lines of
    the next key. For the rows (orders, orders_dw, id) and
    (orders, orders_dw, amount) the run returns, and load prints exactly
    3 rows with the keys id, amount, processed_at. *)
Theorem main_runs_keys_in_order (s : state) :
  (∀ s', main s = Ok () s' →
     ∃ f md plan,
       files s metadata_file = Some f ∧
       read_metadata metadata_file s = Ok md (log (EOpen metadata_file) s) ∧
       NoDup (dict_keys md) ∧
       Forall2 (λ item p, p.1 = item.1 ∧ column_names item.2 = inr p.2) md plan ∧
       trace s' = trace s ++ EOpen metadata_file ::
                    keys_trace (clock s) (ticks s) plan ∧
       length (filter (λ ev, is_open ev = true)
                 (EOpen metadata_file :: keys_trace (clock s) (ticks s) plan)) = 1 ∧
       heap s' = heap s ++ keys_rows (clock s) (ticks s) plan) ∧
  (files s metadata_file = Some orders_file →
   ∃ s' r0 r1 r2,
     main s = Ok () s' ∧
     trace s' = trace s ++
       [EOpen metadata_file;
        EPrint (LExtracting (PyStr "orders") [PyStr "id"; PyStr "amount"]);
        EPrint LTransforming;
        EPrint (LLoading (PyStr "orders_dw"));
        EPrint (LRow r0); EPrint (LRow r1); EPrint (LRow r2)] ∧
     Forall (λ r, dict_keys r = [PyStr "id"; PyStr "amount"; processed_at])
       [r0; r1; r2]).
Proof.
  split.
  - intros s' Hrun.
    destruct (main_ok_inv _ _ Hrun) as (f & md & plan & Hf & Hmd & Hplan).
    exists f, md, plan. split; [done |].
    split; [by apply (read_metadata_ok f) |].
    split.
    { destruct (read_metadata_rows_keys _ _ _ Hmd) as (keys & _ & ->).
      apply NoDup_foldl_add_new, NoDup_nil_2. }
    split; [by apply plan_of_Forall2 |].
    rewrite (main_run _ _ _ _ Hf Hmd Hplan) in Hrun. injection Hrun as <-.
    split; [done |]. split; [| done].
    rewrite filter_cons_True by done. by rewrite filter_is_open_keys_trace.
  - intros Hf. eexists _, _, _, _.
    rewrite (main_run orders_file
               [((PyStr "orders", PyStr "orders_dw"), DictReader orders_file)]
               [((PyStr "orders", PyStr "orders_dw"), [PyStr "id"; PyStr "amount"])]
               s Hf eq_refl eq_refl).
    split; [reflexivity |]. split; [reflexivity |].
    repeat constructor.
Qed.

Lemma main_runs_keys_in_order_witness :
  ∃ s' r0 r1 r2,
    main (world orders_file) = Ok () s' ∧
    trace s' = trace (world orders_file) ++
      [EOpen metadata_file;
       EPrint (LExtracting (PyStr "orders") [PyStr "id"; PyStr "amount"]);
       EPrint LTransforming;
       EPrint (LLoading (PyStr "orders_dw"));
       EPrint (LRow r0); EPrint (LRow r1); EPrint (LRow r2)] ∧
    Forall (λ r, dict_keys r = [PyStr "id"; PyStr "amount"; processed_at])
      [r0; r1; r2].
Proof.
  apply (proj2 (main_runs_keys_in_order (world orders_file))). reflexivity.
Defined.

(** * Further properties of the script *)

(** ** Groups of the metadata *)

Lemma dict_get_elem {K V} `{EqDecision K} (d : pydict K V) k v :
  NoDup (dict_keys d) → (k, v) ∈ d → dict_get d k = Some v.
Proof.
  unfold dict_keys. induction d as [|[k0 v0] d IH]; intros Hnd Hin.
  - by apply elem_of_nil in Hin.
  - rewrite fmap_cons in Hnd. apply NoDup_cons in Hnd as [Hk0 Hnd].
    cbn [dict_get]. apply elem_of_cons in Hin as [Heq|Hin].
    + injection Heq as -> ->. by rewrite decide_True.
    + rewrite decide_False; [by apply IH |].
      intros ->. apply Hk0. apply list_elem_of_fmap. by exists (k, v).
Qed.

Lemma read_metadata_rows_NoDup rows md :
  read_metadata_rows [] rows = inr md → NoDup (dict_keys md).
Proof.
  intros Hmd. destruct (read_metadata_rows_keys _ _ _ Hmd) as (keys & _ & ->).
  apply NoDup_foldl_add_new, NoDup_nil_2.
Qed.

Lemma read_metadata_rows_groups rows md key columns_info :
  read_metadata_rows [] rows = inr md →
  (key, columns_info) ∈ md →
  columns_info = entries_of key rows ∧ columns_info ≠ [].
Proof.
  intros Hmd Hin.
  pose proof (dict_get_elem md key columns_info
                (read_metadata_rows_NoDup _ _ Hmd) Hin) as Hget.
  rewrite (read_metadata_rows_lookup _ _ _ key Hmd) in Hget. cbn in Hget.
  destruct (entries_of key rows) as [|r entries]; [done |].
  injection Hget as <-. done.
Qed.



Lemma elem_of_DictReader fieldnames records r :
  r ∈ DictReader (fieldnames :: records) →
  ∃ record, r = dict_reader_row fieldnames record ∧ record ∈ records ∧ record ≠ [].
Proof.
  unfold DictReader. intros Hr.
  apply list_elem_of_fmap in Hr as (record & -> & Hrecord).
  apply list_elem_of_filter in Hrecord as [Hnonblank Hrecord]. by exists record.
Qed.

Lemma DictReader_elem fieldnames records record :
  record ∈ records → record ≠ [] →
  dict_reader_row fieldnames record ∈ DictReader (fieldnames :: records).
Proof.
  intros Hrecord Hnonblank. unfold DictReader.
  apply list_elem_of_fmap. exists record. split; [done |].
  by apply list_elem_of_filter.
Qed.




(** Without it, none can be derived for the first key. *)
Lemma for_each_main_body_no_column fieldnames records md s :
  "column_name" ∉ fieldnames →
  read_metadata_rows [] (DictReader (fieldnames :: records)) = inr md →
  md ≠ [] →
  for_each md main_body s = Raise (KeyError "column_name") s.
Proof.
  intros Hcol Hmd Hne. destruct md as [|[key columns_info] md']; [done |].
  destruct (read_metadata_rows_groups _ _ key columns_info Hmd) as [Hinfo Hne'];
    [left |].
  destruct columns_info as [|r rest]; [done |].
  assert (r ∈ DictReader (fieldnames :: records)) as Hr.
  { assert (r ∈ entries_of key (DictReader (fieldnames :: records))) as Hr
      by (rewrite <- Hinfo; left).
    by apply list_elem_of_filter in Hr as [_ Hr]. }
  apply elem_of_DictReader in Hr as (record & -> & _).
  cbn [for_each]. unfold bind.
  rewrite (main_body_raise key _ (KeyError "column_name")); [done |].
  cbn [column_names]. by rewrite row_get_dict_reader_row_absent.
Qed.

(** ** Exceptions *)



(** X2: when the header lacks [source_table] or [target_table] and the
    file has a row, [read_metadata] raises [KeyError] for the first of
    the two names that is missing, at the first row. *)
Theorem read_metadata_missing_key_field (fieldnames : list string)
    (records : list (list string)) (record : list string) (s : state) :
  files s metadata_file = Some (fieldnames :: records) →
  record ∈ records → record ≠ [] →
  "source_table" ∉ fieldnames ∨ "target_table" ∉ fieldnames →
  read_metadata metadata_file s =
    Raise (KeyError (if decide ("source_table" ∈ fieldnames) then "target_table"
                     else "source_table"))
          (log (EOpen metadata_file) s).
Proof.
  intros Hf Hrecord Hnonblank Hmissing.
  unfold read_metadata, lift. rewrite Hf.
  pose proof (DictReader_elem fieldnames _ _ Hrecord Hnonblank) as Hrow.
  destruct (DictReader (fieldnames :: records)) as [|r rows] eqn:Hrows.
  { by apply elem_of_nil in Hrow. }
  assert (r ∈ DictReader (fieldnames :: records)) as Hr by (rewrite Hrows; left).
  apply elem_of_DictReader in Hr as (record0 & -> & _).
  cbn [read_metadata_rows]. unfold read_metadata_step, row_key.
  destruct (decide ("source_table" ∈ fieldnames)) as [Hsrc|Hsrc].
  - destruct Hmissing as [?|Htgt]; [done |].
    destruct (row_get_dict_reader_row fieldnames record0 _ Hsrc) as [v ->].
    by rewrite row_get_dict_reader_row_absent.
  - by rewrite row_get_dict_reader_row_absent.
Qed.

Lemma read_metadata_missing_key_field_witness :
  read_metadata metadata_file (world no_source_file) =
    Raise (KeyError "source_table") (log (EOpen metadata_file) (world no_source_file)).
Proof.
  apply (read_metadata_missing_key_field ["target_table"; "column_name"]
           [["orders_dw"; "id"]] ["orders_dw"; "id"] (world no_source_file)).
  - reflexivity.
  - left.
  - discriminate.
  - left. intros Hin. repeat (apply elem_of_cons in Hin as [Hin|Hin]; [discriminate |]).
    by apply elem_of_nil in Hin.
Defined.

(** X3: when the header names [source_table] and [target_table] but not
    [column_name] and the file has a row, [read_metadata] returns, and
    [main] raises [KeyError] for [column_name] at the first key, before
    anything is extracted or printed. *)
Theorem main_missing_column_name (fieldnames : list string)
    (records : list (list string)) (record : list string) (s : state) :
  files s metadata_file = Some (fieldnames :: records) →
  record ∈ records → record ≠ [] →
  "source_table" ∈ fieldnames → "target_table" ∈ fieldnames →
  "column_name" ∉ fieldnames →
  (∃ md, read_metadata metadata_file s = Ok md (log (EOpen metadata_file) s)) ∧
  main s = Raise (KeyError "column_name") (log (EOpen metadata_file) s).
Proof.
  intros Hf Hrecord Hnonblank Hsrc Htgt Hcol.
  destruct (read_metadata_rows_ok [] _ (DictReader_row_keys _ records Hsrc Htgt))
    as [md Hmd].
  split; [exists md; by apply (read_metadata_ok (fieldnames :: records)) |].
  unfold main, bind. rewrite (read_metadata_ok _ _ _ _ Hf Hmd).
  apply (for_each_main_body_no_column fieldnames records); [done | done |].
  intros ->.
  destruct (row_key_dict_reader_row fieldnames record Hsrc Htgt) as [key Hkey].
  pose proof (read_metadata_rows_lookup _ _ _ key Hmd) as Hget.
  assert (dict_reader_row fieldnames record ∈
            entries_of key (DictReader (fieldnames :: records))) as Hin.
  { apply list_elem_of_filter. split; [done | by apply DictReader_elem]. }
  destruct (entries_of key (DictReader (fieldnames :: records))); [| done].
  by apply elem_of_nil in Hin.
Qed.

Lemma main_missing_column_name_witness :
  (∃ md, read_metadata metadata_file (world no_column_file) =
           Ok md (log (EOpen metadata_file) (world no_column_file))) ∧
  main (world no_column_file) =
    Raise (KeyError "column_name") (log (EOpen metadata_file) (world no_column_file)).
Proof.
  apply (main_missing_column_name ["source_table"; "target_table"]
           [["orders"; "orders_dw"]] ["orders"; "orders_dw"] (world no_column_file)).
  - reflexivity.
  - left.
  - discriminate.
  - left.
  - right. left.
  - intros Hin. repeat (apply elem_of_cons in Hin as [Hin|Hin]; [discriminate |]).
    by apply elem_of_nil in Hin.
Defined.

(** ** Runs that return *)

Lemma length_keys_rows clk n plan : length (keys_rows clk n plan) = 3 * length plan.
Proof.
  revert n. induction plan as [|[key columns] plan IH]; intros n; [done |].
  cbn [keys_rows length]. rewrite length_app, IH. cbn [loaded_rows length]. lia.
Qed.

Lemma length_keys_trace clk n plan : length (keys_trace clk n plan) = 6 * length plan.
Proof.
  revert n. induction plan as [|[key columns] plan IH]; intros n; [done |].
  cbn [keys_trace length]. rewrite length_app, IH.
  unfold key_trace, loaded_rows. cbn. lia.
Qed.



(** X5: a run of [main] that returns has made three rows for every key of
    the grouping and read the clock three times for each, printed six
    lines for each, and left the rows that existed before as they were. *)
Theorem main_makes_three_rows_per_key (s s' : state) :
  main s = Ok () s' →
  ∃ md new,
    read_metadata metadata_file s = Ok md (log (EOpen metadata_file) s) ∧
    heap s' = heap s ++ new ∧
    length new = 3 * length md ∧
    ticks s' = 3 * length md + ticks s ∧
    length (trace s') = length (trace s) + 1 + 6 * length md.
Proof.
  intros Hrun.
  destruct (main_ok_inv _ _ Hrun) as (f & md & plan & Hf & Hmd & Hplan).
  rewrite (main_run _ _ _ _ Hf Hmd Hplan) in Hrun. injection Hrun as <-.
  pose proof (Forall2_length _ _ _ (plan_of_Forall2 _ _ Hplan)) as Hlen.
  exists md, (keys_rows (clock s) (ticks s) plan). cbn [heap ticks trace].
  split; [by apply (read_metadata_ok f) |]. split; [done |].
  split; [rewrite length_keys_rows; lia |]. split; [lia |].
  rewrite length_app. cbn [length]. rewrite length_keys_trace. lia.
Qed.

Lemma main_makes_three_rows_per_key_witness :
  ∃ (md : metadata) (new : list row),
    read_metadata metadata_file (world orders_file) =
      Ok md (log (EOpen metadata_file) (world orders_file)) ∧
    length new = 3 * length md.
Proof.
  destruct (main_makes_three_rows_per_key (world orders_file)
              {| files := files (world orders_file); clock := tick_clock; ticks := 3;
                 heap := keys_rows tick_clock 0
                           [((PyStr "orders", PyStr "orders_dw"),
                             [PyStr "id"; PyStr "amount"])];
                 trace := EOpen metadata_file ::
                          keys_trace tick_clock 0
                            [((PyStr "orders", PyStr "orders_dw"),
                              [PyStr "id"; PyStr "amount"])] |})
    as (md & new & Hmd & _ & Hlen & _).
  - reflexivity.
  - exists md, new. split; [exact Hmd | exact Hlen].
Defined.

(** ** A metadata file of triples *)

Lemma row_key_triple t :
  row_key (dict_reader_row header (triple_record t)) = inr (triple_key t).
Proof. by destruct t as [[a b] c]. Qed.

Lemma row_get_column_triple t :
  row_get (dict_reader_row header (triple_record t)) "column_name" = inr (PyStr t.2).
Proof. by destruct t as [[a b] c]. Qed.

Lemma DictReader_triples triples :
  DictReader (header :: (triple_record <$> triples)) =
    (λ t, dict_reader_row header (triple_record t)) <$> triples.
Proof.
  unfold DictReader. induction triples as [|t triples IH]; [done |].
  rewrite (fmap_cons triple_record), filter_cons_True by done.
  rewrite !fmap_cons. by f_equal.
Qed.

Lemma entries_of_triples key triples :
  entries_of key ((λ t, dict_reader_row header (triple_record t)) <$> triples) =
    (λ t, dict_reader_row header (triple_record t)) <$>
      filter (λ t, triple_key t = key) triples.
Proof.
  induction triples as [|t triples IH]; [done |].
  rewrite fmap_cons, entries_of_cons, row_key_triple, IH.
  destruct (decide (triple_key t = key)) as [Heq|Hne].
  - rewrite decide_True by congruence. by rewrite filter_cons_True.
  - rewrite decide_False by congruence. by rewrite filter_cons_False.
Qed.

Lemma column_names_triples triples :
  column_names ((λ t, dict_reader_row header (triple_record t)) <$> triples) =
    inr ((λ t, PyStr t.2) <$> triples).
Proof.
  induction triples as [|t triples IH]; [done |].
  rewrite fmap_cons. cbn [column_names]. by rewrite row_get_column_triple, IH.
Qed.

Lemma Forall2_row_key_triples triples keys :
  Forall2 (λ r key, row_key r = inr key)
    ((λ t, dict_reader_row header (triple_record t)) <$> triples) keys →
  keys = triple_key <$> triples.
Proof.
  revert keys. induction triples as [|t triples IH]; intros keys Hall.
  - by apply Forall2_nil_inv_l in Hall.
  - rewrite fmap_cons in Hall.
    apply Forall2_cons_inv_l in Hall as (key & keys' & Hkey & Hall & ->).
    rewrite row_key_triple in Hkey. injection Hkey as <-.
    rewrite fmap_cons. f_equal. by apply IH.
Qed.

(** X6: for a file with the header [source_table,target_table,column_name]
    and one line per triple, [read_metadata] returns; the keys of the
    grouping are the pairs of tables in order of first occurrence, and
    the column list [main] derives for a pair is the third field of the
    lines with that pair, in the order of the file. *)
Theorem read_metadata_of_triples (triples : list (string * string * string))
    (s : state) :
  files s metadata_file = Some (header :: (triple_record <$> triples)) →
  ∃ md,
    read_metadata metadata_file s = Ok md (log (EOpen metadata_file) s) ∧
    dict_keys md = distinct (triple_key <$> triples) ∧
    ∀ key columns_info,
      dict_get md key = Some columns_info →
      column_names columns_info =
        inr ((λ t, PyStr t.2) <$> filter (λ t, triple_key t = key) triples).
Proof.
  intros Hf.
  destruct (read_metadata_rows_ok []
              (DictReader (header :: (triple_record <$> triples)))) as [md Hmd].
  { apply DictReader_row_keys; [left | right; left]. }
  pose proof (read_metadata_ok _ _ _ _ Hf Hmd) as Hrun.
  exists md. split; [done |]. split.
  - destruct (read_metadata_rows_keys _ _ _ Hmd) as (keys & Hkeys & ->).
    rewrite DictReader_triples in Hkeys.
    by rewrite (Forall2_row_key_triples _ _ Hkeys).
  - intros key columns_info Hinfo.
    rewrite (read_metadata_entries _ _ _ _ _ _ _ Hf Hrun Hinfo).
    by rewrite DictReader_triples, entries_of_triples, column_names_triples.
Qed.

Lemma read_metadata_of_triples_witness :
  ∃ md,
    read_metadata metadata_file (world orders_file) =
      Ok md (log (EOpen metadata_file) (world orders_file)) ∧
    dict_keys md = [(PyStr "orders", PyStr "orders_dw")].
Proof.
  destruct (read_metadata_of_triples
              [("orders", "orders_dw", "id"); ("orders", "orders_dw", "amount")]
              (world orders_file) eq_refl) as (md & Hrun & Hkeys & _).
  exists md. split; [exact Hrun | exact Hkeys].
Defined.

(** ** No row of the file is lost *)

Lemma dict_set_notin {K V} `{EqDecision K} (d : pydict K V) k v :
  k ∉ dict_keys d → dict_set d k v = d ++ [(k, v)].
Proof.
  unfold dict_keys. induction d as [|[k0 v0] d IH]; intros Hk; [done |].
  rewrite fmap_cons in Hk. apply not_elem_of_cons in Hk as [Hne Hk].
  cbn [dict_set]. rewrite decide_False by done. by rewrite IH.
Qed.

Lemma concat_dict_set_snoc {K A} `{EqDecision K} (d : pydict K (list A)) k l x :
  dict_get d k = Some l →
  concat (dict_set d k (l ++ [x])).*2 ≡ₚ x :: concat d.*2.
Proof.
  induction d as [|[k0 l0] d IH]; intros Hget; [done |].
  cbn [dict_get dict_set] in *. destruct (decide (k0 = k)) as [->|Hne].
  - injection Hget as ->. rewrite !fmap_cons. cbn [snd concat].
    rewrite <- app_assoc. cbn [app].
    by rewrite <- Permutation_middle.
  - rewrite !fmap_cons. cbn [snd concat]. rewrite (IH Hget).
    by rewrite Permutation_middle.
Qed.

Lemma read_metadata_step_concat md r md' :
  read_metadata_step md r = inr md' → concat md'.*2 ≡ₚ r :: concat md.*2.
Proof.
  unfold read_metadata_step. destruct (row_key r) as [e|key]; [done |].
  destruct (dict_mem md key) eqn:Hmem.
  - destruct (dict_get md key) as [entries|] eqn:Hget; [| done].
    intros [= <-]. by apply concat_dict_set_snoc.
  - assert (key ∉ dict_keys md) as Hnotin.
    { intros Hin. apply dict_mem_keys in Hin. congruence. }
    rewrite dict_get_set_eq. intros [= <-].
    rewrite (concat_dict_set_snoc _ key [] r) by apply dict_get_set_eq.
    rewrite dict_set_notin by done.
    rewrite fmap_app, concat_app. cbn. by rewrite !app_nil_r.
Qed.

Lemma read_metadata_rows_concat md rows md' :
  read_metadata_rows md rows = inr md' → concat md'.*2 ≡ₚ concat md.*2 ++ rows.
Proof.
  revert md. induction rows as [|r rows IH]; intros md Hrows.
  - injection Hrows as <-. by rewrite app_nil_r.
  - cbn [read_metadata_rows] in Hrows.
    destruct (read_metadata_step md r) as [e|md1] eqn:Hstep; [done |].
    rewrite (IH _ Hrows), (read_metadata_step_concat _ _ _ Hstep).
    apply Permutation_middle.
Qed.

(** X7: the grouping [read_metadata] returns is a partition of the rows
    of the file: the entries of all keys together are the rows of the
    reader, each once; no key has an empty entry list, and every entry is
    under the key made of its own source and target table. *)
Theorem read_metadata_partitions_rows (f : csv_file) (s s0 : state) (md : metadata) :
  files s metadata_file = Some f →
  read_metadata metadata_file s = Ok md s0 →
  concat md.*2 ≡ₚ DictReader f ∧
  ∀ key columns_info,
    (key, columns_info) ∈ md →
    columns_info ≠ [] ∧ Forall (λ r, row_key r = inr key) columns_info.
Proof.
  intros Hf Hrun. destruct (read_metadata_inv _ _ _ _ _ Hf Hrun) as [Hmd _].
  split; [by rewrite (read_metadata_rows_concat _ _ _ Hmd) |].
  intros key columns_info Hitem.
  destruct (read_metadata_rows_groups _ _ _ _ Hmd Hitem) as [-> Hne].
  split; [done |]. apply Forall_forall. intros r Hr.
  by apply list_elem_of_filter in Hr as [Hkey _].
Qed.

Lemma read_metadata_partitions_rows_witness :
  concat [((PyStr "orders", PyStr "orders_dw"), DictReader dup_file)].*2 ≡ₚ
    DictReader dup_file.
Proof.
  apply (read_metadata_partitions_rows dup_file (world dup_file)
           (log (EOpen metadata_file) (world dup_file))
           [((PyStr "orders", PyStr "orders_dw"), DictReader dup_file)]
           eq_refl eq_refl).
Defined.

(** ** The rows of one key are three objects *)

(** X8: extract followed by transform leaves the rows that existed as
    they were and adds three rows; the first carries the first reading of
    the clock, the second the next and the third the one after: a stamp
    written to one row of a key does not show in another. *)
Theorem extract_then_transform (table : pyval) (columns : list pyval) (s : state) :
  ∃ s1 s2,
    extract_data table columns s = Ok (fresh_refs (heap s)) s1 ∧
    transform_data (fresh_refs (heap s)) s1 = Ok (fresh_refs (heap s)) s2 ∧
    heap s2 = heap s ++
      [dict_set (sample_row columns) processed_at (isoformat (clock s (ticks s)));
       dict_set (sample_row columns) processed_at (isoformat (clock s (1 + ticks s)));
       dict_set (sample_row columns) processed_at (isoformat (clock s (2 + ticks s)))] ∧
    ticks s2 = 3 + ticks s.
Proof.
  eexists _, _. rewrite extract_data_run. split; [reflexivity |].
  rewrite transform_data_run. split; [reflexivity |].
  cbn [files clock ticks heap trace]. unfold fresh_refs.
  by rewrite stamp_rows_fresh.
Qed.

(** X9: in a row sequence without repetition, transform stamps the rows
    in the order of the sequence: the row at position [j] carries the
    reading of the clock number [j] after those read before, and the
    clock has been read once for every row. *)
Theorem transform_data_in_order (data : list ref) (s : state) (j : nat) (r : ref)
    (d : row) :
  NoDup data → data !! j = Some r → heap s !! r = Some d →
  ∃ s',
    transform_data data s = Ok data s' ∧
    heap s' !! r = Some (dict_set d processed_at (isoformat (clock s (j + ticks s)))) ∧
    ticks s' = length data + ticks s.
Proof.
  intros Hnd Hj Hd. eexists. rewrite transform_data_run.
  split; [reflexivity |]. cbn [heap ticks]. split; [| done].
  destruct (stamp_rows_lookup_in (clock s) (ticks s) data (heap s) r d)
    as (j' & [Hj' _] & Hlook); [by eapply list_elem_of_lookup_2 | done |].
  by rewrite (NoDup_lookup _ _ _ _ Hnd Hj Hj').
Qed.

Lemma transform_data_in_order_witness :
  ∃ s', transform_data [1; 0] two_rows = Ok [1; 0] s' ∧
        heap s' !! 0 =
          Some (dict_set [(PyStr "id", "1")] processed_at
                  (isoformat (clock two_rows (1 + ticks two_rows)))) ∧
        ticks s' = length [1; 0] + ticks two_rows.
Proof.
  apply (transform_data_in_order [1; 0] two_rows 1 0 [(PyStr "id", "1")]).
  - apply NoDup_cons. split; [| apply NoDup_singleton].
    rewrite list_elem_of_singleton. discriminate.
  - reflexivity.
  - reflexivity.
Defined.

(** ** Load and extract change little *)

(** X10: [load_data] changes no row and does not read the clock; it
    prints the line of the table and then every row of the sequence as it
    is at that moment, one line for each position, in order. *)
Theorem load_data_prints_rows (table : pyval) (data : list ref) (rows : list row)
    (s : state) :
  Forall2 (λ r d, heap s !! r = Some d) data rows →
  ∃ s',
    load_data table data s = Ok () s' ∧
    heap s' = heap s ∧ ticks s' = ticks s ∧
    trace s' = trace s ++ EPrint (LLoading table) :: (EPrint ∘ LRow <$> rows).
Proof.
  intros Hrows. eexists. rewrite load_data_run.
  split; [reflexivity |]. split; [done |]. split; [done |].
  cbn [trace]. do 2 f_equal.
  induction Hrows as [|r d data rows Hd _ IH]; [done |].
  rewrite !fmap_cons, IH. cbn [compose].
  by rewrite (list_lookup_total_correct _ _ _ Hd).
Qed.

Lemma load_data_prints_rows_witness :
  ∃ s',
    load_data (PyStr "orders_dw") [0; 0] two_rows = Ok () s' ∧
    heap s' = heap two_rows ∧ ticks s' = ticks two_rows ∧
    trace s' = trace two_rows ++
      EPrint (LLoading (PyStr "orders_dw")) ::
      (EPrint ∘ LRow <$> [[(PyStr "id", "1")]; [(PyStr "id", "1")]]).
Proof.
  apply (load_data_prints_rows (PyStr "orders_dw") [0; 0]
           [[(PyStr "id", "1")]; [(PyStr "id", "1")]] two_rows).
  repeat constructor.
Defined.

(** X11: the table name reaches the line [extract_data] prints and
    nothing else: for two table names the references returned and the
    rows made are the same. Extract does not read the clock and keeps the
    rows that existed. *)
Theorem extract_data_ignores_table (table table' : pyval) (columns : list pyval)
    (s : state) :
  ∃ data s1 s2,
    extract_data table columns s = Ok data s1 ∧
    extract_data table' columns s = Ok data s2 ∧
    heap s1 = heap s2 ∧ ticks s1 = ticks s ∧
    take (length (heap s)) (heap s1) = heap s.
Proof.
  eexists _, _, _. rewrite !extract_data_run.
  split; [reflexivity |]. split; [reflexivity |]. cbn [heap ticks].
  split; [done |]. split; [done |]. by rewrite take_app_length.
Qed.

(** ** Fields of a row of the reader *)

Lemma dict_get_foldl_set_NoDup {K V A} `{EqDecision K} (val : A → V)
    (d : pydict K V) (l : list (K * A)) k a :
  NoDup l.*1 → (k, a) ∈ l →
  dict_get (foldl (λ d kv, dict_set d kv.1 (val kv.2)) d l) k = Some (val a).
Proof.
  revert d. induction l as [|[k0 a0] l IH]; intros d Hnd Hin.
  - by apply elem_of_nil in Hin.
  - rewrite fmap_cons in Hnd. apply NoDup_cons in Hnd as [Hk0 Hnd].
    cbn [foldl]. apply elem_of_cons in Hin as [Heq|Hin]; [| by apply IH].
    injection Heq as -> ->.
    rewrite (dict_get_foldl_set_notin fst (λ kv, val kv.2)) by done.
    apply dict_get_set_eq.
Qed.

(** X12: when the header has no name twice, a row of the reader gives
    under the name at position [i] of the header the field at position
    [i] of the record, as text. *)
Theorem dict_reader_row_field (fieldnames record : list string) (i : nat)
    (name v : string) :
  NoDup fieldnames →
  fieldnames !! i = Some name → record !! i = Some v →
  row_get (dict_reader_row fieldnames record) name = inr (PyStr v).
Proof.
  intros Hnd Hname Hv. unfold row_get.
  assert (dict_get (foldl (λ d kv, dict_set d kv.1 (PyStr kv.2)) []
                      (zip fieldnames record)) name = Some (PyStr v)) as Hzip.
  { apply (dict_get_foldl_set_NoDup PyStr).
    - rewrite fst_zip_take. eapply sublist_NoDup; [done | apply sublist_take].
    - apply list_elem_of_lookup. exists i. apply lookup_zip_with_Some. by exists name, v. }
  unfold dict_reader_row.
  destruct (length fieldnames <? length record); [by cbn [cells]; rewrite Hzip |].
  destruct (Nat.ltb_spec (length record) (length fieldnames)) as [Hshort|_];
    cbn [cells]; [| by rewrite Hzip].
  pose proof (dict_get_foldl_set_notin (V := pyval) id (λ _ : string, PyNone)
                (foldl (λ d kv, dict_set d kv.1 (PyStr kv.2)) []
                   (zip fieldnames record))
                (drop (length record) fieldnames) name) as Hget.
  cbn beta in Hget. unfold id in Hget at 2. rewrite Hget; [by rewrite Hzip |].
  rewrite list_fmap_id. intros Hin.
  apply list_elem_of_lookup in Hin as [j Hj]. rewrite lookup_drop in Hj.
  pose proof (NoDup_lookup _ _ _ _ Hnd Hname Hj) as ->.
  apply lookup_lt_Some in Hv. lia.
Qed.

Lemma dict_reader_row_field_witness :
  row_get (dict_reader_row header ["orders"; "orders_dw"; "id"]) "column_name" =
    inr (PyStr "id").
Proof.
  apply (dict_reader_row_field header ["orders"; "orders_dw"; "id"] 2).
  - repeat (apply NoDup_cons; split;
            [rewrite ?not_elem_of_cons; repeat split;
             try apply not_elem_of_nil; discriminate |]).
    apply NoDup_nil_2.
  - reflexivity.
  - reflexivity.
Defined.

(** X13: the fields of a record beyond the header do not reach the
    script: under every name, a row of the reader reads the same as the
    row of the record cut to the length of the header. *)
Theorem dict_reader_row_long (fieldnames record : list string) (name : string) :
  length fieldnames ≤ length record →
  row_get (dict_reader_row fieldnames record) name =
    row_get (dict_reader_row fieldnames (take (length fieldnames) record)) name.
Proof.
  intros Hlong. unfold row_get, dict_reader_row.
  rewrite length_take, Nat.min_l by done.
  rewrite zip_with_take_r.
  rewrite Nat.ltb_irrefl.
  destruct (length fieldnames <? length record) eqn:Hlt; [done |].
  apply Nat.ltb_ge in Hlt.
  by replace (length record <? length fieldnames) with false
    by (symmetry; apply Nat.ltb_ge; lia).
Qed.

Lemma dict_reader_row_long_witness :
  row_get (dict_reader_row header ["orders"; "orders_dw"; "id"; "extra"]) "column_name" =
    row_get (dict_reader_row header
               (take (length header) ["orders"; "orders_dw"; "id"; "extra"]))
      "column_name".
Proof.
  apply (dict_reader_row_long header ["orders"; "orders_dw"; "id"; "extra"]).
  cbn. lia.
Defined.


